(** * Verification of the text extraction and classification pipeline of
    ocr_pdf ([src/bpp.py], [src/app.py]).

    Python [str] values are modelled as lists of ASCII characters; Python's
    [re] module is modelled by a small backtracking matcher for the fragment
    the program uses (character classes under greedy repetition, [^] and
    [$] without MULTILINE), following the order in which [sre] explores
    greedy single-character repeats: longest first, then shorter. *)

From Stdlib Require Import Ascii String.
From Stdlib Require Import List Bool Arith Lia.
Import ListNotations.
Open Scope list_scope.

Abbreviation text := (list ascii).

Definition chars (s : string) : text := list_ascii_of_string s.

(** ** Characters *)

Definition NL : ascii := ascii_of_nat 10.
Definition TAB : ascii := ascii_of_nat 9.
Definition SPACE : ascii := " "%char.

(** [str.isspace] and the regex class [\s] on ASCII:
    \t \n \v \f \r, \x1c-\x1f and the space. *)
Definition is_ws (c : ascii) : bool :=
  let n := nat_of_ascii c in
  ((9 <=? n) && (n <=? 13)) || ((28 <=? n) && (n <=? 32)).

(** [\d] on ASCII. *)
Definition is_digit (c : ascii) : bool :=
  let n := nat_of_ascii c in (48 <=? n) && (n <=? 57).

(** [str.lower] on one ASCII character. *)
Definition lower (c : ascii) : ascii :=
  let n := nat_of_ascii c in
  if (65 <=? n) && (n <=? 90) then ascii_of_nat (n + 32) else c.

Definition lower_str (s : text) : text := map lower s.

Definition is_lower_alpha (c : ascii) : bool :=
  let n := nat_of_ascii c in (97 <=? n) && (n <=? 122).

(** ** A regex engine for the patterns of the program *)

Inductive piece :=
| Bol                                           (* ^ *)
| Eol                                           (* $ *)
| Rep (cls : ascii -> bool) (lo : nat) (hi : option nat).
                                                (* class{lo,hi}, greedy *)

Definition pattern := list piece.

(** Number of leading characters of [s] in the class. *)
Fixpoint run_len (cls : ascii -> bool) (s : text) : nat :=
  match s with
  | [] => 0
  | c :: s' => if cls c then S (run_len cls s') else 0
  end.

(** Greedy backtracking: try [j], then [j-1], ... down to [lo]. *)
Fixpoint try_down (f : nat -> option text) (lo j : nat) : option text :=
  if j <? lo then None
  else match f j with
       | Some r => Some r
       | None => match j with 0 => None | S j' => try_down f lo j' end
       end.

(** [mtch p bol s]: the first match of [p] at the start of [s], in the
    backtracking order; [Some r] gives the unmatched rest [r]. [bol] tells
    whether the current position is the start of the whole string. *)
Fixpoint mtch (p : pattern) (bol : bool) (s : text) : option text :=
  match p with
  | [] => Some s
  | Bol :: p' => if bol then mtch p' bol s else None
  | Eol :: p' =>
      match s with
      | [] => mtch p' bol s
      | [c] => if Ascii.eqb c NL then mtch p' bol s else None
      | _ => None
      end
  | Rep cls lo hi :: p' =>
      let k := match hi with
               | None => run_len cls s
               | Some h => Nat.min h (run_len cls s)
               end in
      try_down (fun j => mtch p' (bol && (j =? 0)) (skipn j s)) lo k
  end.

(** [re.search(p, s) is not None]: try every start position. *)
Fixpoint search_from (p : pattern) (bol : bool) (s : text) : bool :=
  match mtch p bol s with
  | Some _ => true
  | None => match s with [] => false | _ :: s' => search_from p false s' end
  end.

Definition re_search (p : pattern) (s : text) : bool := search_from p true s.

(** [re.match(p, s) is not None]. *)
Definition re_match (p : pattern) (s : text) : bool :=
  match mtch p true s with Some _ => true | None => false end.

(** [re.sub(p, repl, s)]: leftmost matches, left to right, not overlapping;
    an empty match is replaced and the next character copied (Python 3.7+).
    The fuel [S (length s)] suffices since every step consumes a character
    or stops. *)
Fixpoint sub_fuel (fuel : nat) (p : pattern) (repl : text) (bol : bool)
    (s : text) : text :=
  match fuel with
  | 0 => s
  | S f =>
      match mtch p bol s with
      | Some r =>
          if length r <? length s then repl ++ sub_fuel f p repl false r
          else repl ++ match s with
                       | [] => []
                       | c :: s' => c :: sub_fuel f p repl false s'
                       end
      | None =>
          match s with
          | [] => []
          | c :: s' => c :: sub_fuel f p repl false s'
          end
      end
  end.

Definition re_sub (p : pattern) (repl s : text) : text :=
  sub_fuel (S (length s)) p repl true s.

(** [re.split(p, s)] for a pattern without groups: the pieces between the
    matches, [cur] being the piece under construction. *)
Fixpoint split_fuel (fuel : nat) (p : pattern) (bol : bool) (cur s : text)
    : list text :=
  match fuel with
  | 0 => [cur ++ s]
  | S f =>
      match mtch p bol s with
      | Some r =>
          if length r <? length s then cur :: split_fuel f p false [] r
          else match s with
               | [] => [cur; []]
               | c :: s' => cur :: split_fuel f p false [c] s'
               end
      | None =>
          match s with
          | [] => [cur]
          | c :: s' => split_fuel f p false (cur ++ [c]) s'
          end
      end
  end.

Definition re_split (p : pattern) (s : text) : list text :=
  split_fuel (S (length s)) p true [] s.

(** Building blocks of the patterns. *)
Definition one (cls : ascii -> bool) : piece := Rep cls 1 (Some 1).
Definition star (cls : ascii -> bool) : piece := Rep cls 0 None.
Definition plus (cls : ascii -> bool) : piece := Rep cls 1 None.
Definition opt (cls : ascii -> bool) : piece := Rep cls 0 (Some 1).

(** A literal word, case-sensitive and under [(?i)]. *)
Definition word (w : string) : pattern :=
  map (fun c => one (fun x => Ascii.eqb x c)) (chars w).
Definition word_ci (w : string) : pattern :=
  map (fun c => one (fun x => Ascii.eqb (lower x) c)) (chars w).

Definition is_nl (c : ascii) : bool := Ascii.eqb c NL.
Definition not_nl (c : ascii) : bool := negb (is_nl c).
Definition is_space_tab (c : ascii) : bool :=
  Ascii.eqb c SPACE || Ascii.eqb c TAB.
Definition is_dash (c : ascii) : bool := Ascii.eqb c "-"%char.

(** ** Python string helpers *)

(** [str.strip()]. *)
Fixpoint lstrip (s : text) : text :=
  match s with
  | [] => []
  | c :: s' => if is_ws c then lstrip s' else s
  end.

Definition strip (s : text) : text := rev (lstrip (rev (lstrip s))).

(** [not s.strip()]. *)
Definition is_blank (s : text) : bool := forallb is_ws s.

Definition text_eqb (a b : text) : bool :=
  if list_eq_dec ascii_dec a b then true else false.

(** [s.split('\n')]. *)
Fixpoint split_nl (s : text) : list text :=
  match s with
  | [] => [[]]
  | c :: s' =>
      let ls := split_nl s' in
      if is_nl c then [] :: ls
      else match ls with
           | l :: ls' => (c :: l) :: ls'
           | [] => [[c]]
           end
  end.

(** [sep.join(ls)]. *)
Fixpoint join (sep : text) (ls : list text) : text :=
  match ls with
  | [] => []
  | [l] => l
  | l :: ls' => l ++ sep ++ join sep ls'
  end.

(** [str(n)] for a natural number. *)
Fixpoint digits_aux (fuel n : nat) (acc : text) : text :=
  match fuel with
  | 0 => acc
  | S f =>
      let acc' := ascii_of_nat (48 + n mod 10) :: acc in
      if n <? 10 then acc' else digits_aux f (n / 10) acc'
  end.

Definition str_of_nat (n : nat) : text := digits_aux (S n) n [].

(** ** [bpp.py]: the patterns of [PDFTextExtractor] *)

Definition supp_head (w : string) : pattern :=
  [Bol; star is_ws] ++ word_ci w
  ++ [plus is_ws; plus is_digit; star not_nl; Eol].

Definition supp_word (w : string) (plural : bool) : pattern :=
  [Bol; star is_ws] ++ word_ci w
  ++ (if plural then [opt (fun x => Ascii.eqb (lower x) "s"%char)] else [])
  ++ [star is_ws; Eol].

(** [self.supplementary_patterns], lines 47-57. *)
Definition supplementary_patterns : list pattern :=
  [ supp_head "table";                       (* (?i)^\s*table\s+\d+.*$ *)
    supp_head "figure";                      (* (?i)^\s*figure\s+\d+.*$ *)
    supp_head "chart";                       (* (?i)^\s*chart\s+\d+.*$ *)
    supp_head "diagram";                     (* (?i)^\s*diagram\s+\d+.*$ *)
    [Bol; star is_ws] ++ word_ci "appendix"  (* (?i)^\s*appendix\s+[a-z\d]+.*$ *)
      ++ [plus is_ws;
          plus (fun x => is_lower_alpha (lower x) || is_digit x);
          star not_nl; Eol];
    supp_word "reference" true;              (* (?i)^\s*references?\s*$ *)
    supp_word "bibliography" false;          (* (?i)^\s*bibliography\s*$ *)
    supp_word "index" false;                 (* (?i)^\s*index\s*$ *)
    supp_word "glossary" false ].            (* (?i)^\s*glossary\s*$ *)

(** [\d+[\s\t]+\d+] *)
Definition tabular_pat : pattern :=
  [plus is_digit; plus (fun x => is_ws x || Ascii.eqb x TAB); plus is_digit].

(** [\n\s*\n\s*\n] *)
Definition blank_lines_pat : pattern :=
  [one is_nl; star is_ws; one is_nl; star is_ws; one is_nl].

(** [[ \t]+] *)
Definition hspace_pat : pattern := [plus is_space_tab].

(** [^\d+$] *)
Definition page_number_pat : pattern := [Bol; plus is_digit; Eol].

(** [^page\s+\d+] *)
Definition page_line_pat : pattern :=
  [Bol] ++ word "page" ++ [plus is_ws; plus is_digit].

(** [\n\s*---\s*Page\s+\d+\s*---\s*\n] *)
Definition marker_pat : pattern :=
  [one is_nl; star is_ws; one is_dash; one is_dash; one is_dash; star is_ws]
  ++ word "Page"
  ++ [plus is_ws; plus is_digit; star is_ws;
      one is_dash; one is_dash; one is_dash; star is_ws; one is_nl].

(** [Page\s+(\d+)] *)
Definition page_search_pat : pattern :=
  word "Page" ++ [plus is_ws; plus is_digit].

(** ** [is_supplementary_content], lines 71-92 *)

Definition matches_supplementary (line : text) : bool :=
  existsb (fun p => re_search p line) supplementary_patterns.

Definition is_tabular_line (line : text) : bool :=
  re_search tabular_pat line || (2 <? count_occ ascii_dec line TAB).

(** The test [numeric_lines / len(text_lines) > 0.3] is done by Python in
    double precision; it is modelled exactly, as [10 * numeric > 3 * len]
    (the two agree for any line count below 2^50). *)
Definition is_supplementary_content (text_block : text) : bool :=
  let text_lines := split_nl (strip text_block) in
  if existsb (fun line => matches_supplementary (strip line))
       (firstn 3 text_lines)
  then true
  else
    let numeric_lines := length (filter is_tabular_line text_lines) in
    (3 <? length text_lines) && (3 * length text_lines <? 10 * numeric_lines).

(** ** [clean_text_block], lines 94-119 *)

Definition is_boilerplate (line : text) : bool :=
  (length line <? 3)
  || re_match page_number_pat line
  || re_match page_line_pat (lower_str line)
  || existsb (fun w => text_eqb (lower_str line) (chars w))
       ["header"; "footer"]%string.

Definition clean_text_block (t : text) : text :=
  match t with
  | [] => []
  | _ =>
      let t1 := re_sub blank_lines_pat [NL; NL] t in
      let t2 := re_sub hspace_pat [SPACE] t1 in
      let lines := split_nl t2 in
      join [NL] (filter (fun line => negb (is_boilerplate line))
                   (map strip lines))
  end.

(** ** [separate_content], lines 121-152 *)

(** [f"\n--- Page {i} ---\n"] *)
Definition page_marker (i : nat) : text :=
  [NL] ++ chars "--- Page " ++ str_of_nat i ++ chars " ---" ++ [NL].

(** The loop over [enumerate(blocks)], appending to the two lists. *)
Fixpoint separate_loop (whole : text) (i : nat) (blocks : list text)
    (main_content supplementary_content : list text) : list text * list text :=
  match blocks with
  | [] => (main_content, supplementary_content)
  | block :: rest =>
      if is_blank block
      then separate_loop whole (S i) rest main_content supplementary_content
      else
        let block' :=
          if (0 <? i) && re_search page_search_pat whole
          then page_marker i ++ block else block in
        let cleaned_block := clean_text_block block' in
        if is_supplementary_content cleaned_block
        then separate_loop whole (S i) rest main_content
               (supplementary_content ++ [cleaned_block])
        else separate_loop whole (S i) rest (main_content ++ [cleaned_block])
               supplementary_content
  end.

Definition separate_content (t : text) : text * text :=
  if is_blank t then ([], [])
  else
    let blocks := re_split marker_pat t in
    let '(main_content, supplementary_content) :=
      separate_loop t 0 blocks [] [] in
    (strip (join [NL; NL] main_content),
     strip (join [NL; NL] supplementary_content)).

(** Lines 183-187 of [extract_text_from_pdf]. *)
Definition banner : text :=
  [NL; NL] ++ repeat "="%char 60 ++ [NL] ++ chars "SUPPLEMENTARY CONTENT"
  ++ [NL] ++ repeat "="%char 60 ++ [NL; NL].

Definition assemble (main_content supplementary_content : text) : text :=
  main_content ++
  match supplementary_content with
  | [] => []
  | _ => banner ++ supplementary_content
  end.

Definition organize (raw_text : text) : text :=
  let '(m, s) := separate_content raw_text in assemble m s.

(** ** Reading of the loop of [separate_content]

    The block at index [i] of [re.split] as the loop hands it to
    [clean_text_block]: prefixed with its page marker when [i > 0] (the
    guard [re.search(r'Page\s+(\d+)', text)] always holds there, see
    [marker_page] below). *)
Definition placed_block (i : nat) (block : text) : text :=
  if 0 <? i then page_marker i ++ block else block.

(** The cleaned non-blank blocks with their classification, in order. *)
Fixpoint classify_from (i : nat) (blocks : list text) : list (text * bool) :=
  match blocks with
  | [] => []
  | block :: rest =>
      if is_blank block then classify_from (S i) rest
      else
        let c := clean_text_block (placed_block i block) in
        (c, is_supplementary_content c) :: classify_from (S i) rest
  end.

Definition classified_blocks (t : text) : list (text * bool) :=
  if is_blank t then [] else classify_from 0 (re_split marker_pat t).


Definition indexed (blocks : list text) : list (nat * text) :=
  combine (seq 0 (length blocks)) blocks.

(** ** Reading the PDF: [extract_text_from_pdf] and [process]

    A page's [extract_text()] returns a text or raises; a file that cannot
    be opened or parsed raises before any page is read. What the program
    prints, and the call of the OCR routine, are recorded as events. *)
Inductive page_result := Text (s : text) | Fails.
Inductive pdf_file := Unreadable | Readable (pages : list page_result).

Inductive event :=
| Checking (n : nat)      (* "Checking n pages ..." / "Extracting text from n pages..." *)
| WarnPage (n : nat)      (* "Warning: Could not extract text from page n: ..." *)
| FoundText               (* "Found extractable text" / "Successfully extracted" *)
| NoText                  (* "No extractable text found in PDF" *)
| ErrorReading            (* "Error reading PDF: ..." *)
| Organized               (* "Content organized: ..." *)
| FallingBack             (* "Falling back to OCR..." *)
| OcrCalled               (* the call [self.ocr_pdf_to_text()] *)
| FailedAll.              (* "Failed to extract any text from the PDF" *)

(** [if not text]: [None] and the empty string are false. *)
Definition falsy (o : option text) : bool :=
  match o with None => true | Some [] => true | Some _ => false end.

(** src/app.py, lines 59-63: no [try] around a page; [None] stands for
    the exception leaving the loop. *)
Fixpoint app_pages (page_num : nat) (pages : list page_result) (acc : text)
    : option text :=
  match pages with
  | [] => Some acc
  | Text page_text :: rest =>
      app_pages (S page_num) rest
        (if is_blank page_text then acc else acc ++ page_marker page_num ++ page_text)
  | Fails :: _ => None
  end.

(** src/app.py, lines 50-75. *)
Definition app_extract (f : pdf_file) : option text * list event :=
  match f with
  | Unreadable => (None, [ErrorReading])
  | Readable pages =>
      match app_pages 1 pages [] with
      | None => (None, [Checking (length pages); ErrorReading])
      | Some text =>
          if negb (is_blank text) then (Some text, [Checking (length pages); FoundText])
          else (None, [Checking (length pages); NoText])
      end
  end.

(** src/app.py, lines 132-154, after [validate_pdf]; [ocr] is what
    [ocr_pdf_to_text] returns. The result is the log and the text saved. *)
Definition app_process (ocr : option text) (f : pdf_file) : list event * option text :=
  let '(text, log) := app_extract f in
  let '(text', log') :=
    if falsy text then (ocr, log ++ [FallingBack; OcrCalled]) else (text, log) in
  if falsy text' then (log' ++ [FailedAll], None) else (log', text').

(** src/bpp.py, lines 163-171: each page in its own [try]. *)
Fixpoint bpp_pages (page_num : nat) (pages : list page_result) (raw_text : text)
    (log : list event) : text * list event :=
  match pages with
  | [] => (raw_text, log)
  | Text page_text :: rest =>
      bpp_pages (S page_num) rest
        (if is_blank page_text then raw_text
         else raw_text ++ page_marker page_num ++ page_text) log
  | Fails :: rest => bpp_pages (S page_num) rest raw_text (log ++ [WarnPage page_num])
  end.

(** src/bpp.py, lines 154-194. *)
Definition bpp_extract (f : pdf_file) : option text * list event :=
  match f with
  | Unreadable => (None, [ErrorReading])
  | Readable pages =>
      let '(raw_text, log) := bpp_pages 1 pages [] [Checking (length pages)] in
      if is_blank raw_text then (None, log ++ [NoText])
      else (Some (organize raw_text), log ++ [FoundText; Organized])
  end.

(** Text from lines, joined by newlines, for writing examples. *)
Definition lines (ls : list string) : text := join [NL] (map chars ls).

(** ** Paths: [pathlib.PurePosixPath] and [os.path.expanduser] (POSIX) *)

(** [s.split(sep)] *)
Fixpoint split_sep (sep : ascii) (s : text) : list text :=
  match s with
  | [] => [[]]
  | c :: s' =>
      if Ascii.eqb c sep then [] :: split_sep sep s'
      else match split_sep sep s' with
           | [] => [[c]]
           | l :: ls => (c :: l) :: ls
           end
  end.

Definition SLASH : ascii := "/"%char.
Definition DOT : ascii := "."%char.
Definition TILDE : ascii := "~"%char.

(** The parts of [Path(p)] after its root: [[x for x in p.split('/') if x
    and x != '.']]. *)
Definition path_parts (p : text) : list text :=
  filter (fun x => negb (text_eqb x []) && negb (text_eqb x [DOT])) (split_sep SLASH p).

(** [Path(p).name]: the last part, or [''] for a root or an empty path. *)
Definition path_name (p : text) : text := last (path_parts p) [].

(** [s.rfind(c)], [None] standing for [-1]. *)
Fixpoint rfind_from (c : ascii) (s : text) (i : nat) (found : option nat) : option nat :=
  match s with
  | [] => found
  | d :: s' => rfind_from c s' (S i) (if Ascii.eqb d c then Some i else found)
  end.
Definition rfind (c : ascii) (s : text) : option nat := rfind_from c s 0 None.

(** [PurePath.suffix] and [PurePath.stem]. *)
Definition path_suffix (p : text) : text :=
  let name := path_name p in
  match rfind DOT name with
  | Some i => if (0 <? i) && (i <? length name - 1) then skipn i name else []
  | None => []
  end.
Definition path_stem (p : text) : text :=
  let name := path_name p in
  match rfind DOT name with
  | Some i => if (0 <? i) && (i <? length name - 1) then firstn i name else name
  | None => name
  end.

(** [__init__]: the file name of [self.output_path], [f"{self.pdf_name}.txt"]
    in the current directory. *)
Definition output_name (pdf_path : text) : text := path_stem pdf_path ++ chars ".txt".

(** What the command line programs print, beyond [event]. *)
Inductive cli_event :=
| Core (e : event)
| PdfNotFound            (* "Error: PDF file '...' not found." *)
| NotAPdf                (* "Error: '...' is not a PDF file." *)
| Processing             (* "Processing PDF: ...", "Output will be saved as: ...", dashes *)
| AskPath                (* the prompt of [input()] *)
| PleaseEnter            (* "Please enter a valid path." *)
| Converting             (* "Converting PDF to images for OCR..." *)
| NoImages               (* "Error: Could not convert PDF to images" *)
| OcrPages (n : nat)     (* "Processing n pages with OCR..." *)
| OcrPage (k n : nat)    (* "Processing page k/n..." *)
| OcrDone                (* "OCR completed successfully" *)
| OcrNoText              (* "No text could be extracted via OCR" *)
| OcrError (msg : text)  (* "Error during OCR processing: msg" *)
| TesseractNote          (* the four lines on installing Tesseract *)
| NoteSearchable         (* bpp.py's two notes on searchable text *)
| SavedTo                (* "Text saved to: ...", "File size: ..." *)
| SaveError.             (* "Error saving text file: ..." *)

(** [validate_pdf], the same in both files; [pdf_exists] is what
    [self.pdf_path.exists()] returns. *)
Definition validate_pdf (pdf_exists : bool) (pdf_path : text) : bool * list cli_event :=
  if negb pdf_exists then (false, [PdfNotFound])
  else if negb (text_eqb (lower_str (path_suffix pdf_path)) (chars ".pdf"))
  then (false, [NotAPdf])
  else (true, []).

(** [str.lstrip(chars)], [str.strip(chars)] for a class of characters. *)
Fixpoint lstrip_by (f : ascii -> bool) (s : text) : text :=
  match s with
  | [] => []
  | c :: s' => if f c then lstrip_by f s' else s
  end.
Definition strip_by (f : ascii -> bool) (s : text) : text :=
  rev (lstrip_by f (rev (lstrip_by f s))).

(** [s.find(c)], [None] standing for [-1]. *)
Fixpoint find_char (c : ascii) (s : text) : option nat :=
  match s with
  | [] => None
  | d :: s' => if Ascii.eqb d c then Some 0 else option_map S (find_char c s')
  end.

(** [posixpath.expanduser]. [home] is [$HOME], or the password database's
    entry for the current user when [$HOME] is unset; [user_home] looks a
    user name up in the password database; [None] is a missing entry. *)
Definition expanduser (home : option text) (user_home : text -> option text)
    (path : text) : text :=
  match path with
  | [] => path
  | c :: rest =>
      if negb (Ascii.eqb c TILDE) then path
      else
        let i := match find_char SLASH rest with
                 | Some j => S j
                 | None => length path
                 end in
        let userhome := if i =? 1 then home else user_home (firstn (i - 1) rest) in
        match userhome with
        | None => path
        | Some h =>
            match rev (lstrip_by (fun x => Ascii.eqb x SLASH) (rev h)) ++ skipn i path with
            | [] => [SLASH]
            | r => r
            end
        end
  end.

Definition is_quote (c : ascii) : bool :=
  Ascii.eqb c (ascii_of_nat 34) || Ascii.eqb c (ascii_of_nat 39).

(** [prompt_for_pdf_path], the same in both files, reading the lines
    [inputs]; [None] is the [EOFError] of [input()] when they run out. *)
Fixpoint prompt_for_pdf_path (home : option text) (user_home : text -> option text)
    (inputs : list text) : list cli_event * option text :=
  match inputs with
  | [] => ([AskPath], None)
  | line :: rest =>
      let pdf_path := strip line in
      if text_eqb pdf_path [] then
        let '(log, r) := prompt_for_pdf_path home user_home rest in
        (AskPath :: PleaseEnter :: log, r)
      else ([AskPath], Some (expanduser home user_home (strip_by is_quote pdf_path)))
  end.

(** ** OCR in src/app.py, lines 77-116 *)

(** What [pytesseract.image_to_string] does on one image, and what
    [convert_from_path] does on the file. *)
Inductive ocr_page := OcrText (s : text) | OcrRaises (msg : text).
Inductive ocr_source := ConvertRaises (msg : text) | Images (pages : list ocr_page).

(** [w in s] *)
Definition contains (w s : text) : bool :=
  existsb (fun k => text_eqb (firstn (length w) (skipn k s)) w) (seq 0 (S (length s))).

(** The [except] branch, lines 109-116. *)
Definition ocr_error (msg : text) : list cli_event :=
  OcrError msg :: (if contains (chars "tesseract") (lower_str msg) then [TesseractNote] else []).

(** The loop of lines 92-100; [inr msg] is an exception leaving it. *)
Fixpoint ocr_pages (page_num total : nat) (pages : list ocr_page) (full_text : text)
    (log : list cli_event) : (text + text) * list cli_event :=
  match pages with
  | [] => (inl full_text, log)
  | OcrText page_text :: rest =>
      ocr_pages (S page_num) total rest
        (if is_blank page_text then full_text
         else full_text ++ page_marker page_num ++ page_text)
        (log ++ [OcrPage page_num total])
  | OcrRaises msg :: _ => (inr msg, log ++ [OcrPage page_num total])
  end.

Definition ocr_pdf_to_text (src : ocr_source) : option text * list cli_event :=
  match src with
  | ConvertRaises msg => (None, Converting :: ocr_error msg)
  | Images [] => (None, [Converting; NoImages])
  | Images pages =>
      match ocr_pages 1 (length pages) pages [] [Converting; OcrPages (length pages)] with
      | (inr msg, log) => (None, log ++ ocr_error msg)
      | (inl full_text, log) =>
          if is_blank full_text then (None, log ++ [OcrNoText])
          else (Some full_text, log ++ [OcrDone])
      end
  end.

(** The text the loop of lines 92-100 builds from the pages [pages],
    numbered from [k], when OCR reads every one of them. *)
Definition ocr_text_of (k : nat) (pages : list text) : text :=
  concat (map (fun kt => if is_blank (snd kt) then [] else page_marker (fst kt) ++ snd kt)
              (combine (seq k (length pages)) pages)).

(** ** [process] in both files *)

(** src/app.py, lines 132-154: the log, the result, and the text handed to
    [save_text_to_file], whose success is [save_ok]. *)
Definition app_run (pdf_exists : bool) (pdf_path : text) (f : pdf_file)
    (src : ocr_source) (save_ok : bool) : list cli_event * bool * option text :=
  let '(valid, vlog) := validate_pdf pdf_exists pdf_path in
  if negb valid then (vlog, false, None)
  else
    let '(text, log1) := app_extract f in
    let '(text', log2) :=
      if falsy text
      then let '(t, l) := ocr_pdf_to_text src in (t, Core FallingBack :: l)
      else (text, []) in
    let log := Processing :: map Core log1 ++ log2 in
    if falsy text' then (log ++ [Core FailedAll], false, None)
    else (log ++ [if save_ok then SavedTo else SaveError], save_ok, text').

(** src/bpp.py, lines 210-229. *)
Definition bpp_run (pdf_exists : bool) (pdf_path : text) (f : pdf_file)
    (save_ok : bool) : list cli_event * bool * option text :=
  let '(valid, vlog) := validate_pdf pdf_exists pdf_path in
  if negb valid then (vlog, false, None)
  else
    let '(text, log1) := bpp_extract f in
    let log := Processing :: map Core log1 in
    if falsy text then (log ++ [Core FailedAll; NoteSearchable], false, None)
    else (log ++ [if save_ok then SavedTo else SaveError], save_ok, text).

(** ** Definitions used by the proofs *)

(** The language of a pattern: [pm p bol s r] when a prefix of [s] matches
    [p], leaving [r]. *)
Fixpoint pm (p : pattern) (bol : bool) (s r : text) : Prop :=
  match p with
  | [] => s = r
  | Bol :: p' => bol = true /\ pm p' bol s r
  | Eol :: p' => (s = [] \/ s = [NL]) /\ pm p' bol s r
  | Rep cls lo hi :: p' =>
      exists w s', s = w ++ s' /\ lo <= length w /\
        match hi with None => True | Some h => length w <= h end /\
        forallb cls w = true /\ pm p' (bol && (length w =? 0)) s' r
  end.

Definition sub_from (p : pattern) (repl : text) (b : bool) (s : text) : text :=
  sub_fuel (S (length s)) p repl b s.

Definition collapse_hspace (s : text) : text := sub_from hspace_pat [SPACE] true s.

Definition keep_line (line : text) : bool := negb (is_boilerplate line).

(** What the loop of lines 107-117 keeps of a list of lines, once the
    spaces and tabs of each line are collapsed. *)
Definition clean_lines (ls : list text) : list text :=
  filter keep_line (map (fun l => strip (collapse_hspace l)) ls).

Definition starts_solid (s : text) : Prop :=
  match s with [] => True | c :: _ => is_ws c = false end.

Definition is_stripped (s : text) : Prop := starts_solid s /\ starts_solid (rev s).

Fixpoint hs_norm (s : text) : bool :=
  match s with
  | [] => true
  | c :: s' =>
      negb (Ascii.eqb c TAB)
      && (if Ascii.eqb c SPACE
          then match s' with d :: _ => negb (is_space_tab d) | [] => true end
          else true)
      && hs_norm s'
  end.

Definition good_line (l : text) : Prop :=
  keep_line l = true /\ is_stripped l /\ ~ In NL l /\ hs_norm l = true.

Definition non_empty_line (l : text) : bool := negb (text_eqb l []).

(** Scenario B of the specification: six lines, three of them numeric. *)
Definition scenario_b : text :=
  lines ["The results are shown below"; "12   45   7";
         "The second row follows"; "13   46   8";
         "And the third row"; "14   47   9"]%string.

Definition no_bol (p : pattern) : bool :=
  forallb (fun x => match x with Bol => false | _ => true end) p.


Definition scenario_stream : text :=
  lines ["--- Page 1 ---"; "Intro text."; "--- Page 2 ---"; "Table 1"; "1 2"; "3 4"]%string.

Definition has_text (p : page_result) : bool :=
  match p with Text s => negb (is_blank s) | Fails => false end.

(** * Properties of the regex engine *)

Example str_of_nat_120 : str_of_nat 120 = chars "120".
Proof. reflexivity. Qed.
Example search_ex : re_search (word "ab" ++ [plus is_digit]) (chars "xxab12") = true.
Proof. reflexivity. Qed.

Lemma try_down_some f lo j r :
  try_down f lo j = Some r -> exists i, lo <= i <= j /\ f i = Some r.
Proof.
  induction j as [|j IH]; simpl; intros H.
  - destruct (0 <? lo) eqn:E; [discriminate|].
    apply Nat.ltb_ge in E.
    destruct (f 0) eqn:F; [|discriminate].
    exists 0; split; [lia|congruence].
  - destruct (S j <? lo) eqn:E; [discriminate|].
    apply Nat.ltb_ge in E.
    destruct (f (S j)) eqn:F.
    + exists (S j); split; [lia|congruence].
    + destruct (IH H) as [i [Hi Hf]]. exists i; split; [lia|assumption].
Qed.

Lemma try_down_complete f lo j i r :
  lo <= i <= j -> f i = Some r -> exists r', try_down f lo j = Some r'.
Proof.
  induction j as [|j IH]; simpl; intros Hi Hf.
  - assert (i = 0) by lia; subst.
    destruct (0 <? lo) eqn:E; [apply Nat.ltb_lt in E; lia|].
    rewrite Hf. eauto.
  - destruct (S j <? lo) eqn:E; [apply Nat.ltb_lt in E; lia|].
    destruct (f (S j)) eqn:F; [eauto|].
    destruct (Nat.eq_dec i (S j)) as [->|Hne]; [congruence|].
    apply IH; [lia|assumption].
Qed.

Lemma run_len_firstn cls s j :
  j <= run_len cls s ->
  forallb cls (firstn j s) = true /\ length (firstn j s) = j.
Proof.
  revert j; induction s as [|c s IH]; intros j Hj; simpl in *.
  - assert (j = 0) by lia; subst; auto.
  - destruct (cls c) eqn:C; [|assert (j = 0) by lia; subst; auto].
    destruct j as [|j]; simpl; auto.
    rewrite C. destruct (IH j) as [H1 H2]; [lia|]. rewrite H1, H2; auto.
Qed.

Lemma run_len_app cls w s :
  forallb cls w = true -> length w <= run_len cls (w ++ s).
Proof.
  induction w as [|c w IH]; simpl; intros H; [lia|].
  apply andb_true_iff in H as [H1 H2]. rewrite H1. specialize (IH H2). lia.
Qed.

Lemma mtch_sound p : forall b s r, mtch p b s = Some r -> pm p b s r.
Proof.
  induction p as [|[| |cls lo hi] p IH]; simpl; intros b s r H.
  - congruence.
  - destruct b; [split; auto|discriminate].
  - destruct s as [|c [|c' s]].
    + split; auto.
    + destruct (Ascii.eqb c NL) eqn:E; [|discriminate].
      apply Ascii.eqb_eq in E; subst. split; auto.
    + discriminate.
  - apply try_down_some in H as [j [[Hlo Hj] Hf]].
    assert (Hr : j <= run_len cls s)
      by (destruct hi; [pose proof (Nat.le_min_r n (run_len cls s))|]; lia).
    destruct (run_len_firstn cls s j Hr) as [Hall Hlen].
    exists (firstn j s), (skipn j s). rewrite Hlen.
    split; [symmetry; apply firstn_skipn|].
    split; [assumption|]. split.
    { destruct hi; [pose proof (Nat.le_min_l n (run_len cls s)); lia|exact I]. }
    split; [assumption|]. apply IH; assumption.
Qed.

Lemma mtch_complete p : forall b s r, pm p b s r -> exists r', mtch p b s = Some r'.
Proof.
  induction p as [|[| |cls lo hi] p IH]; simpl; intros b s r H.
  - eauto.
  - destruct H as [-> H]. eauto.
  - destruct H as [[-> | ->] H]; [eauto|].
    simpl. rewrite ?Ascii.eqb_refl. eauto.
  - destruct H as [w [s' [-> [Hlo [Hhi [Hall Hp]]]]]].
    destruct (IH _ _ _ Hp) as [r' Hr'].
    apply (try_down_complete _ _ _ (length w) r').
    + pose proof (run_len_app cls w s' Hall).
      split; [assumption|]. destruct hi; [apply Nat.min_glb|]; lia.
    + rewrite skipn_app, skipn_all, Nat.sub_diag; simpl. assumption.
Qed.

Lemma pm_suffix p : forall b s r, pm p b s r -> exists w, s = w ++ r.
Proof.
  induction p as [|[| |cls lo hi] p IH]; simpl; intros b s r H.
  - subst. exists []; reflexivity.
  - destruct H as [_ H]; eauto.
  - destruct H as [_ H]; eauto.
  - destruct H as [w [s' [-> [_ [_ [_ Hp]]]]]].
    destruct (IH _ _ _ Hp) as [w' ->]. exists (w ++ w'). apply app_assoc.
Qed.

Lemma mtch_suffix p b s r : mtch p b s = Some r -> exists w, s = w ++ r.
Proof. intros H. eapply pm_suffix, mtch_sound; eassumption. Qed.

(** ** Unfolding [re.sub] *)

Lemma sub_fuel_S f p repl b s :
  sub_fuel (S f) p repl b s =
  match mtch p b s with
  | Some r =>
      if length r <? length s then repl ++ sub_fuel f p repl false r
      else repl ++ match s with
                   | [] => []
                   | c :: s' => c :: sub_fuel f p repl false s'
                   end
  | None => match s with [] => [] | c :: s' => c :: sub_fuel f p repl false s' end
  end.
Proof. reflexivity. Qed.

Lemma sub_fuel_enough p repl : forall n m b s,
  S (length s) <= n -> S (length s) <= m ->
  sub_fuel n p repl b s = sub_fuel m p repl b s.
Proof.
  induction n as [|n IH]; intros m b s Hn Hm; [lia|].
  destruct m as [|m]; [lia|].
  rewrite !sub_fuel_S.
  destruct (mtch p b s) as [r|].
  - destruct (length r <? length s) eqn:E.
    + apply Nat.ltb_lt in E. f_equal. apply IH; lia.
    + destruct s as [|c s]; [reflexivity|]. simpl in *.
      do 2 f_equal. apply IH; lia.
  - destruct s as [|c s]; [reflexivity|]. simpl in *.
    f_equal. apply IH; lia.
Qed.

Lemma sub_from_eq p repl b s :
  sub_from p repl b s =
  match mtch p b s with
  | Some r =>
      if length r <? length s then repl ++ sub_from p repl false r
      else repl ++ match s with
                   | [] => []
                   | c :: s' => c :: sub_from p repl false s'
                   end
  | None => match s with [] => [] | c :: s' => c :: sub_from p repl false s' end
  end.
Proof.
  unfold sub_from at 1. rewrite sub_fuel_S. unfold sub_from.
  destruct (mtch p b s) as [r|].
  - destruct (length r <? length s) eqn:E.
    + apply Nat.ltb_lt in E. f_equal. apply sub_fuel_enough; lia.
    + destruct s as [|c s]; reflexivity.
  - destruct s as [|c s]; reflexivity.
Qed.

(** ** Lines: [split('\n')] and ['\n'.join] *)

Lemma split_nl_nonnil s : split_nl s <> [].
Proof.
  destruct s as [|c s]; simpl; [discriminate|].
  destruct (is_nl c); [discriminate|]. destruct (split_nl s); discriminate.
Qed.

Lemma is_nl_true c : is_nl c = true -> c = NL.
Proof. unfold is_nl. apply Ascii.eqb_eq. Qed.

Lemma is_nl_NL : is_nl NL = true.
Proof. reflexivity. Qed.

Lemma join_cons_char sep c l ls : join sep ((c :: l) :: ls) = c :: join sep (l :: ls).
Proof. destruct ls; reflexivity. Qed.

Lemma join_cons sep l ls : ls <> [] -> join sep (l :: ls) = l ++ sep ++ join sep ls.
Proof. destruct ls; [congruence|reflexivity]. Qed.

Lemma join_split s : join [NL] (split_nl s) = s.
Proof.
  induction s as [|c s IH]; [reflexivity|]. simpl.
  destruct (is_nl c) eqn:E.
  - apply is_nl_true in E; subst.
    rewrite join_cons by apply split_nl_nonnil. simpl. rewrite IH. reflexivity.
  - destruct (split_nl s) as [|l ls] eqn:Hs; [now apply split_nl_nonnil in Hs|].
    rewrite join_cons_char, IH. reflexivity.
Qed.

Lemma split_app_nl x y : split_nl (x ++ NL :: y) = split_nl x ++ split_nl y.
Proof.
  induction x as [|c x IH]; [reflexivity|]. simpl. rewrite IH.
  destruct (is_nl c); [reflexivity|].
  destruct (split_nl x) as [|l ls] eqn:Hs; [now apply split_nl_nonnil in Hs|].
  reflexivity.
Qed.

Lemma split_no_nl l : ~ In NL l -> split_nl l = [l].
Proof.
  induction l as [|c l IH]; intros H; [reflexivity|]. simpl.
  destruct (is_nl c) eqn:E.
  - apply is_nl_true in E; subst. exfalso; apply H; left; reflexivity.
  - rewrite IH; [reflexivity|]. intros Hin; apply H; right; assumption.
Qed.

Lemma split_join ls :
  ls <> [] -> (forall l, In l ls -> ~ In NL l) -> split_nl (join [NL] ls) = ls.
Proof.
  induction ls as [|l ls IH]; intros Hne Hl; [congruence|].
  destruct ls as [|l' ls].
  - simpl. apply split_no_nl, Hl. left; reflexivity.
  - rewrite join_cons by discriminate.
    change ([NL] ++ join [NL] (l' :: ls)) with (NL :: join [NL] (l' :: ls)).
    rewrite split_app_nl, IH.
    + rewrite split_no_nl by (apply Hl; left; reflexivity). reflexivity.
    + discriminate.
    + intros l0 Hin. apply Hl. right; assumption.
Qed.

Lemma split_nl_chars s l c : In l (split_nl s) -> In c l -> In c s.
Proof.
  revert l. induction s as [|d s IH]; simpl; intros l Hl Hc.
  - destruct Hl as [<-|[]]. destruct Hc.
  - destruct (is_nl d).
    + destruct Hl as [<-|Hl]; [destruct Hc|]. right; eapply IH; eassumption.
    + destruct (split_nl s) as [|l0 ls] eqn:Hs.
      * destruct Hl as [<-|[]]. destruct Hc as [<-|[]]. left; reflexivity.
      * destruct Hl as [<-|Hl].
        -- destruct Hc as [<-|Hc]; [left; reflexivity|].
           right; eapply IH; [try rewrite Hs; left; reflexivity|assumption].
        -- right; eapply IH; [try rewrite Hs; right; eassumption|assumption].
Qed.

Lemma split_nl_no_nl s l : In l (split_nl s) -> ~ In NL l.
Proof.
  revert l. induction s as [|d s IH]; simpl; intros l Hl Hc.
  - destruct Hl as [<-|[]]. destruct Hc.
  - destruct (is_nl d) eqn:E.
    + destruct Hl as [<-|Hl]; [destruct Hc|]. eapply IH; eassumption.
    + destruct (split_nl s) as [|l0 ls] eqn:Hs.
      * destruct Hl as [<-|[]]. destruct Hc as [Hc|[]].
        subst. discriminate.
      * destruct Hl as [<-|Hl].
        -- destruct Hc as [Hc|Hc]; [subst; discriminate|].
           eapply IH; [try rewrite Hs; left; reflexivity|exact Hc].
        -- eapply IH; [try rewrite Hs; right; exact Hl|exact Hc].
Qed.

(** ** [re.sub(r'[ \t]+', ' ', s)] *)

Lemma collapse_hspace_re_sub s : re_sub hspace_pat [SPACE] s = collapse_hspace s.
Proof. reflexivity. Qed.

Lemma mtch_hspace b s :
  mtch hspace_pat b s =
  match run_len is_space_tab s with 0 => None | k => Some (skipn k s) end.
Proof. unfold hspace_pat, plus. simpl. destruct (run_len is_space_tab s); reflexivity. Qed.

Lemma run_len_le cls s : run_len cls s <= length s.
Proof. induction s as [|c s IH]; simpl; [lia|]. destruct (cls c); simpl; lia. Qed.

Lemma hspace_bol b s :
  sub_from hspace_pat [SPACE] b s = sub_from hspace_pat [SPACE] false s.
Proof. rewrite !sub_from_eq, !mtch_hspace. reflexivity. Qed.

Lemma collapse_hspace_nil : collapse_hspace [] = [].
Proof. reflexivity. Qed.

Lemma collapse_hspace_cons c s :
  collapse_hspace (c :: s) =
  if is_space_tab c
  then SPACE :: collapse_hspace (skipn (run_len is_space_tab s) s)
  else c :: collapse_hspace s.
Proof.
  unfold collapse_hspace.
  rewrite sub_from_eq, mtch_hspace. simpl run_len.
  destruct (is_space_tab c).
  - change (skipn (S (run_len is_space_tab s)) (c :: s))
      with (skipn (run_len is_space_tab s) s).
    assert (length (skipn (run_len is_space_tab s) s) < length (c :: s)).
    { rewrite length_skipn. simpl. lia. }
    apply Nat.ltb_lt in H. rewrite H.
    rewrite (hspace_bol true). reflexivity.
  - rewrite (hspace_bol true). reflexivity.
Qed.

(** Strong induction on the length of a list. *)
Lemma len_ind (P : text -> Prop) :
  (forall s, (forall s', length s' < length s -> P s') -> P s) -> forall s, P s.
Proof.
  intros H s. remember (length s) as n eqn:E.
  revert s E. induction n as [n IH] using (well_founded_induction lt_wf).
  intros s ->. apply H. intros s' Hs'. eapply IH; [exact Hs'|reflexivity].
Qed.

Lemma collapse_hspace_chars s c :
  In c (collapse_hspace s) -> c = SPACE \/ In c s.
Proof.
  induction s as [s IH] using len_ind.
  destruct s as [|d s]; [rewrite collapse_hspace_nil; intros []|].
  rewrite collapse_hspace_cons. destruct (is_space_tab d); intros [<-|Hin].
  - left; reflexivity.
  - destruct (IH (skipn (run_len is_space_tab s) s)) as [?|Hs]; auto.
    + rewrite length_skipn; simpl; lia.
    + right; right. rewrite <- (firstn_skipn (run_len is_space_tab s) s).
      apply in_or_app; right; exact Hs.
  - right; left; reflexivity.
  - destruct (IH s) as [?|Hs]; simpl; auto.
Qed.

Lemma run_len_app_stop cls x d y :
  cls d = false -> run_len cls (x ++ d :: y) = run_len cls x.
Proof.
  intros Hd. induction x as [|c x IH]; simpl; [rewrite Hd; reflexivity|].
  destruct (cls c); [rewrite IH|]; reflexivity.
Qed.

Lemma collapse_hspace_app_nl x y :
  collapse_hspace (x ++ NL :: y) = collapse_hspace x ++ NL :: collapse_hspace y.
Proof.
  induction x as [x IH] using len_ind.
  destruct x as [|c x].
  - change ([] ++ NL :: y) with (NL :: y).
    rewrite collapse_hspace_cons. reflexivity.
  - change ((c :: x) ++ NL :: y) with (c :: (x ++ NL :: y)).
    rewrite !collapse_hspace_cons.
    destruct (is_space_tab c).
    + rewrite run_len_app_stop by reflexivity.
      rewrite skipn_app.
      replace (run_len is_space_tab x - length x) with 0
        by (pose proof (run_len_le is_space_tab x); lia).
      simpl skipn at 2. rewrite IH; [reflexivity|].
      rewrite length_skipn; simpl; lia.
    + rewrite IH by (simpl; lia). reflexivity.
Qed.

Lemma collapse_hspace_join ls :
  collapse_hspace (join [NL] ls) = join [NL] (map collapse_hspace ls).
Proof.
  induction ls as [|l ls IH]; [reflexivity|].
  destruct ls as [|l' ls]; [reflexivity|].
  rewrite !join_cons by discriminate.
  change ([NL] ++ join [NL] (l' :: ls)) with (NL :: join [NL] (l' :: ls)).
  change ([NL] ++ join [NL] (map collapse_hspace (l' :: ls)))
    with (NL :: join [NL] (map collapse_hspace (l' :: ls))).
  rewrite collapse_hspace_app_nl, IH. reflexivity.
Qed.

Lemma split_collapse_hspace s :
  split_nl (collapse_hspace s) = map collapse_hspace (split_nl s).
Proof.
  rewrite <- (join_split s) at 1. rewrite collapse_hspace_join.
  apply split_join.
  - destruct (split_nl s) eqn:E; [now apply split_nl_nonnil in E|discriminate].
  - intros l Hl Hin. apply in_map_iff in Hl as [l0 [<- Hl0]].
    apply collapse_hspace_chars in Hin as [Hc|Hc]; [discriminate|].
    eapply split_nl_no_nl; eassumption.
Qed.

(** ** [clean_text_block], line by line *)

Lemma clean_lines_app a b : clean_lines (a ++ b) = clean_lines a ++ clean_lines b.
Proof. unfold clean_lines. rewrite map_app, filter_app. reflexivity. Qed.

Lemma clean_lines_nil_line : clean_lines (split_nl []) = [].
Proof. reflexivity. Qed.

Lemma lstrip_blank s : forallb is_ws s = true -> lstrip s = [].
Proof.
  induction s as [|c s IH]; simpl; intros H; [reflexivity|].
  apply andb_true_iff in H as [-> H]. auto.
Qed.

Lemma strip_blank s : forallb is_ws s = true -> strip s = [].
Proof. intros H. unfold strip. rewrite (lstrip_blank s H). reflexivity. Qed.

Lemma collapse_hspace_blank s :
  forallb is_ws s = true -> forallb is_ws (collapse_hspace s) = true.
Proof.
  intros H. apply forallb_forall. intros c Hc.
  apply collapse_hspace_chars in Hc as [->|Hc]; [reflexivity|].
  rewrite forallb_forall in H. auto.
Qed.

Lemma clean_lines_blank u : forallb is_ws u = true -> clean_lines (split_nl u) = [].
Proof.
  intros Hu. unfold clean_lines.
  assert (Hl : forall l, In l (split_nl u) -> strip (collapse_hspace l) = []).
  { intros l Hl. apply strip_blank, collapse_hspace_blank.
    apply forallb_forall. intros c Hc.
    rewrite forallb_forall in Hu. apply Hu. eapply split_nl_chars; eassumption. }
  induction (split_nl u) as [|l ls IH]; [reflexivity|].
  simpl. rewrite Hl by (left; reflexivity). simpl.
  apply IH. intros l' H'. apply Hl. right; assumption.
Qed.

Lemma single_nl w :
  1 <= length w -> length w <= 1 -> forallb is_nl w = true -> w = [NL].
Proof.
  destruct w as [|c [|d w]]; simpl; intros H1 H2 H3; try lia.
  rewrite andb_true_r in H3. apply is_nl_true in H3. subst. reflexivity.
Qed.

(** A match of [\n\s*\n\s*\n] is a newline, whitespace, and a newline. *)
Lemma mtch_blank_lines b s r :
  mtch blank_lines_pat b s = Some r ->
  exists u, s = NL :: u ++ NL :: r /\ forallb is_ws u = true.
Proof.
  intros H. apply mtch_sound in H. unfold blank_lines_pat, one, star in H.
  simpl in H.
  destruct H as [w1 [s1 [-> [H1 [H1' [Hw1 [w2 [s2 [-> [_ [_ [Hw2 [w3 [s3 [-> [H3 [H3' [Hw3 [w4 [s4 [-> [_ [_ [Hw4 [w5 [s5 [-> [H5 [H5' [Hw5 ->]]]]]]]]]]]]]]]]]]]]]]]]]]]]]].
  rewrite (single_nl w1), (single_nl w3), (single_nl w5) by assumption.
  exists (w2 ++ NL :: w4). split.
  - simpl. rewrite <- app_assoc. reflexivity.
  - rewrite forallb_app. simpl. rewrite Hw2, Hw4. reflexivity.
Qed.

Lemma clean_lines_blank_sub : forall n x b s,
  clean_lines (split_nl (x ++ sub_fuel n blank_lines_pat [NL; NL] b s))
  = clean_lines (split_nl (x ++ s)).
Proof.
  induction n as [|n IH]; intros x b s; [reflexivity|].
  rewrite sub_fuel_S. destruct (mtch blank_lines_pat b s) as [r|] eqn:M.
  - destruct (mtch_blank_lines _ _ _ M) as [u [-> Hu]].
    assert (E : (length r <? length (NL :: u ++ NL :: r)) = true).
    { apply Nat.ltb_lt. simpl. rewrite length_app. simpl. lia. }
    rewrite E, app_assoc, IH, <- app_assoc.
    change ([NL; NL] ++ r) with (NL :: ([] ++ NL :: r)).
    rewrite !split_app_nl, !clean_lines_app, (clean_lines_blank u Hu).
    rewrite clean_lines_nil_line. reflexivity.
  - destruct s as [|c s]; [reflexivity|].
    replace (x ++ c :: sub_fuel n blank_lines_pat [NL; NL] false s)
      with ((x ++ [c]) ++ sub_fuel n blank_lines_pat [NL; NL] false s)
      by (rewrite <- app_assoc; reflexivity).
    rewrite IH, <- app_assoc. reflexivity.
Qed.

(** The substitution of blank-line runs never changes the result: every
    line it touches is blank and is dropped anyway. *)
Lemma clean_text_block_spec t :
  clean_text_block t = join [NL] (clean_lines (split_nl t)).
Proof.
  destruct t as [|a t]; [reflexivity|].
  cbv beta iota zeta delta [clean_text_block].
  rewrite collapse_hspace_re_sub, split_collapse_hspace, map_map.
  change (filter (fun line => negb (is_boilerplate line))
            (map (fun x => strip (collapse_hspace x))
               (split_nl (re_sub blank_lines_pat [NL; NL] (a :: t)))))
    with (clean_lines (split_nl (re_sub blank_lines_pat [NL; NL] (a :: t)))).
  f_equal. exact (clean_lines_blank_sub _ [] true (a :: t)).
Qed.

(** ** Stripped lines *)

Lemma lstrip_solid s : starts_solid s -> lstrip s = s.
Proof. destruct s as [|c s]; simpl; intros H; [reflexivity|]. rewrite H. reflexivity. Qed.

Lemma lstrip_starts s : starts_solid (lstrip s).
Proof.
  induction s as [|c s IH]; simpl; [exact I|].
  destruct (is_ws c) eqn:E; [exact IH|exact E].
Qed.

Lemma lstrip_split s : exists a, s = a ++ lstrip s /\ forallb is_ws a = true.
Proof.
  induction s as [|c s IH]; simpl; [exists []; auto|].
  destruct (is_ws c) eqn:E.
  - destruct IH as [a [Ha Hw]]. exists (c :: a). simpl. rewrite <- Ha, E, Hw. auto.
  - exists []. auto.
Qed.

Lemma stripped_strip s : is_stripped s -> strip s = s.
Proof.
  intros [H1 H2]. unfold strip.
  rewrite (lstrip_solid s H1), (lstrip_solid (rev s) H2), rev_involutive.
  reflexivity.
Qed.

Lemma strip_is_stripped s : is_stripped (strip s).
Proof.
  unfold strip. pose proof (lstrip_starts s) as Hy.
  destruct (lstrip_split (rev (lstrip s))) as [a [Ha _]].
  split; [|rewrite rev_involutive; apply lstrip_starts].
  assert (Ey : lstrip s = rev (lstrip (rev (lstrip s))) ++ rev a).
  { rewrite <- rev_app_distr, <- Ha, rev_involutive. reflexivity. }
  destruct (rev (lstrip (rev (lstrip s)))) as [|c z]; simpl; [exact I|].
  rewrite Ey in Hy. exact Hy.
Qed.

Lemma strip_split s : exists a b, s = a ++ strip s ++ b.
Proof.
  destruct (lstrip_split s) as [a [Ha _]].
  destruct (lstrip_split (rev (lstrip s))) as [a' [Ha' _]].
  exists a, (rev a'). unfold strip.
  assert (E : lstrip s = rev (lstrip (rev (lstrip s))) ++ rev a').
  { rewrite <- rev_app_distr, <- Ha', rev_involutive. reflexivity. }
  transitivity (a ++ lstrip s); [exact Ha|]. f_equal. exact E.
Qed.

Lemma in_strip c s : In c (strip s) -> In c s.
Proof.
  intros H. destruct (strip_split s) as [a [b E]]. rewrite E.
  apply in_or_app; right; apply in_or_app; left; exact H.
Qed.

(** ** Lines without tabs or runs of spaces *)

Lemma not_space_tab c :
  is_space_tab c = false -> Ascii.eqb c SPACE = false /\ Ascii.eqb c TAB = false.
Proof. unfold is_space_tab. apply orb_false_iff. Qed.

Lemma skipn_run_len cls s :
  match skipn (run_len cls s) s with [] => True | d :: _ => cls d = false end.
Proof.
  induction s as [|c s IH]; simpl; [exact I|].
  destruct (cls c) eqn:E; [exact IH|exact E].
Qed.

Lemma collapse_hspace_hs_norm s : hs_norm (collapse_hspace s) = true.
Proof.
  induction s as [s IH] using len_ind.
  destruct s as [|c s]; [reflexivity|].
  rewrite collapse_hspace_cons. destruct (is_space_tab c) eqn:E.
  - pose proof (skipn_run_len is_space_tab s) as Hk.
    assert (Hl : length (skipn (run_len is_space_tab s) s) < length (c :: s))
      by (rewrite length_skipn; simpl; lia).
    specialize (IH _ Hl).
    destruct (skipn (run_len is_space_tab s) s) as [|d y]; [reflexivity|].
    rewrite collapse_hspace_cons, Hk in *. simpl. rewrite Hk. exact IH.
  - apply not_space_tab in E as [E1 E2].
    simpl. rewrite E1, E2. simpl. apply IH. simpl; lia.
Qed.

Lemma hs_norm_app x y : hs_norm (x ++ y) = true -> hs_norm x = true /\ hs_norm y = true.
Proof.
  induction x as [|c x IH]; simpl; intros H; [auto|].
  apply andb_true_iff in H as [H H3]. apply andb_true_iff in H as [H1 H2].
  destruct (IH H3) as [Hx Hy]. rewrite H1, Hx. split; [|exact Hy].
  destruct (Ascii.eqb c SPACE); [|reflexivity].
  destruct x as [|d x]; simpl in *; rewrite ?H2; reflexivity.
Qed.

Lemma collapse_hspace_id s : hs_norm s = true -> collapse_hspace s = s.
Proof.
  induction s as [s IH] using len_ind.
  destruct s as [|c s]; [reflexivity|]. intros H.
  rewrite collapse_hspace_cons. simpl in H.
  apply andb_true_iff in H as [H H3]. apply andb_true_iff in H as [H1 H2].
  destruct (is_space_tab c) eqn:E.
  - assert (Ec : Ascii.eqb c SPACE = true).
    { unfold is_space_tab in E. apply negb_true_iff in H1.
      rewrite H1, orb_false_r in E. exact E. }
    rewrite Ec in H2. apply Ascii.eqb_eq in Ec. subst c.
    assert (Hr : run_len is_space_tab s = 0).
    { destruct s as [|d s]; [reflexivity|]. simpl.
      apply negb_true_iff in H2. rewrite H2. reflexivity. }
    rewrite Hr. simpl skipn. rewrite IH by (simpl; lia || assumption).
    reflexivity.
  - rewrite IH by (simpl; lia || assumption). reflexivity.
Qed.

(** ** The lines [clean_text_block] produces *)

Lemma clean_lines_good ls :
  (forall l, In l ls -> ~ In NL l) -> forall l, In l (clean_lines ls) -> good_line l.
Proof.
  intros Hls l Hl. unfold clean_lines in Hl.
  apply filter_In in Hl as [Hl Hk]. apply in_map_iff in Hl as [l0 [<- Hl0]].
  split; [exact Hk|]. split; [apply strip_is_stripped|]. split.
  - intros Hin. apply in_strip, collapse_hspace_chars in Hin as [Hc|Hc];
      [discriminate|]. exact (Hls l0 Hl0 Hc).
  - destruct (strip_split (collapse_hspace l0)) as [a [b E]].
    pose proof (collapse_hspace_hs_norm l0) as Hn. rewrite E in Hn.
    apply hs_norm_app in Hn as [_ Hn]. apply hs_norm_app in Hn as [Hn _].
    exact Hn.
Qed.

Lemma clean_good t l : In l (clean_lines (split_nl t)) -> good_line l.
Proof. apply clean_lines_good. intros l0. apply split_nl_no_nl. Qed.

Lemma good_clean_lines L : (forall l, In l L -> good_line l) -> clean_lines L = L.
Proof.
  unfold clean_lines. induction L as [|l L IH]; intros H; [reflexivity|].
  destruct (H l (or_introl eq_refl)) as [Hk [Hs [_ Hn]]].
  simpl. rewrite collapse_hspace_id, stripped_strip, Hk by assumption.
  f_equal. apply IH. intros l' Hl'. apply H. right; exact Hl'.
Qed.

Lemma good_nonnil l : good_line l -> l <> [].
Proof. intros [Hk _] ->. discriminate. Qed.

Lemma starts_solid_app x y : x <> [] -> starts_solid x -> starts_solid (x ++ y).
Proof. destruct x; [congruence|]. simpl. auto. Qed.

Lemma join_nonnil sep l ls : l <> [] -> join sep (l :: ls) <> [].
Proof.
  intros H. destruct ls; [exact H|]. simpl. destruct l; [congruence|discriminate].
Qed.

Lemma is_stripped_join sep L :
  (forall l, In l L -> l <> [] /\ is_stripped l) -> is_stripped (join sep L).
Proof.
  intros H. destruct L as [|l ls]; [split; exact I|].
  destruct (H l (or_introl eq_refl)) as [Hne [Hs _]]. split.
  - destruct ls; [exact Hs|]. simpl. apply starts_solid_app; assumption.
  - clear Hne Hs. revert l H. induction ls as [|l' ls IH]; intros l H.
    + apply H. left; reflexivity.
    + change (join sep (l :: l' :: ls)) with (l ++ sep ++ join sep (l' :: ls)).
      rewrite !rev_app_distr, <- app_assoc. apply starts_solid_app.
      * intros E. apply (f_equal (@rev ascii)) in E. rewrite rev_involutive in E.
        apply (join_nonnil sep l' ls); [apply H; right; left; reflexivity|exact E].
      * apply IH. intros l0 Hl0. apply H. right; exact Hl0.
Qed.

Lemma good_stripped L :
  (forall l, In l L -> good_line l) -> forall l, In l L -> l <> [] /\ is_stripped l.
Proof.
  intros H l Hl. split; [apply good_nonnil; auto|]. apply H; assumption.
Qed.

(** A cleaned block is its own [strip()], and its lines are its kept
    lines. *)
Lemma strip_clean t : strip (clean_text_block t) = clean_text_block t.
Proof.
  rewrite clean_text_block_spec. apply stripped_strip, is_stripped_join.
  apply good_stripped. apply clean_good.
Qed.

Lemma split_clean t :
  clean_lines (split_nl t) <> [] ->
  split_nl (clean_text_block t) = clean_lines (split_nl t).
Proof.
  intros Hne. rewrite clean_text_block_spec. apply split_join; [exact Hne|].
  intros l Hl. apply clean_good in Hl as [_ [_ [H _]]]. exact H.
Qed.

Lemma lines_of_clean t l :
  In l (split_nl (clean_text_block t)) -> strip l = l.
Proof.
  destruct (clean_lines (split_nl t)) eqn:E.
  - rewrite clean_text_block_spec, E. intros [<-|[]]. reflexivity.
  - rewrite split_clean by (rewrite E; discriminate).
    intros Hl. apply stripped_strip. apply clean_good in Hl as [_ [H _]]. exact H.
Qed.

Lemma is_digit_not_ws c : is_digit c = true -> is_ws c = false.
Proof.
  unfold is_digit, is_ws. intros H.
  rewrite andb_true_iff, !Nat.leb_le in H.
  apply Bool.not_true_iff_false. rewrite orb_true_iff, !andb_true_iff, !Nat.leb_le.
  lia.
Qed.

Lemma digits_hs_norm d : forallb is_digit d = true -> hs_norm d = true.
Proof.
  induction d as [|c d IH]; simpl; intros H; [reflexivity|].
  apply andb_true_iff in H as [Hc Hd].
  destruct (Ascii.eqb c TAB) eqn:E1.
  { apply Ascii.eqb_eq in E1. subst. discriminate. }
  destruct (Ascii.eqb c SPACE) eqn:E2.
  { apply Ascii.eqb_eq in E2. subst. discriminate. }
  simpl. apply IH, Hd.
Qed.

Lemma digits_stripped d : forallb is_digit d = true -> is_stripped d.
Proof.
  intros H. rewrite forallb_forall in H. split.
  - destruct d as [|c d]; simpl; [exact I|]. apply is_digit_not_ws, H. left; reflexivity.
  - destruct (rev d) as [|c r] eqn:E; simpl; [exact I|].
    apply is_digit_not_ws, H. apply in_rev. rewrite E. left; reflexivity.
Qed.

(** A purely numeric line is boilerplate: [^\d+$] matches it. *)
Lemma digits_boilerplate d :
  d <> [] -> forallb is_digit d = true -> keep_line d = false.
Proof.
  intros Hne Hd. unfold keep_line, is_boilerplate.
  assert (Hm : re_match page_number_pat d = true).
  { unfold re_match.
    destruct (mtch_complete page_number_pat true d []) as [r Hr].
    - simpl. split; [reflexivity|]. exists d, []. rewrite app_nil_r.
      split; [reflexivity|]. split; [destruct d; [congruence|simpl; lia]|].
      split; [exact I|]. split; [exact Hd|]. split; [left; reflexivity|reflexivity].
    - rewrite Hr. reflexivity. }
  rewrite Hm, orb_true_r. reflexivity.
Qed.

Lemma digits_no_nl d : forallb is_digit d = true -> ~ In NL d.
Proof.
  intros H Hin. rewrite forallb_forall in H. specialize (H _ Hin). discriminate.
Qed.

Lemma in_firstn_in {A} n (l : list A) x : In x (firstn n l) -> In x l.
Proof.
  intros H. rewrite <- (firstn_skipn n l). apply in_or_app. left; exact H.
Qed.

Lemma filter_all {A} (f : A -> bool) l :
  (forall x, In x l -> f x = true) -> filter f l = l.
Proof.
  induction l as [|y l IH]; intros H; [reflexivity|].
  simpl. rewrite H by (left; reflexivity). f_equal.
  apply IH. intros x Hx. apply H. right; exact Hx.
Qed.

Lemma none_matches (f : text -> bool) L :
  forallb (fun l => negb (f l)) L = true -> forall l, In l L -> f l = false.
Proof.
  rewrite forallb_forall. intros H l Hl. apply negb_true_iff, H, Hl.
Qed.

Lemma non_empty_good l : good_line l -> non_empty_line l = true.
Proof.
  intros H. apply good_nonnil in H. unfold non_empty_line, text_eqb.
  destruct (list_eq_dec ascii_dec l []); [contradiction|reflexivity].
Qed.

(** The first three non-empty lines of a cleaned block are its first three
    lines, each its own [strip()]. *)
Lemma clean_header_lines t line :
  In line (firstn 3 (filter non_empty_line (split_nl (clean_text_block t)))) ->
  In line (firstn 3 (split_nl (strip (clean_text_block t)))) /\ strip line = line.
Proof.
  rewrite strip_clean. intros Hin.
  destruct (clean_lines (split_nl t)) as [|l L] eqn:E.
  - rewrite clean_text_block_spec, E in Hin. destruct Hin.
  - rewrite split_clean in * by (rewrite E; discriminate).
    rewrite filter_all in Hin
      by (intros x Hx; apply non_empty_good, (clean_good t), Hx).
    split; [exact Hin|].
    apply in_firstn_in, clean_good in Hin as [_ [Hs _]].
    apply stripped_strip, Hs.
Qed.

(** * The claims *)

(** ** C1, header lines *)

(** C1 (corrected). Amended claim: for a block produced by
    [clean_text_block], if one of its first three non-empty lines matches
    one of the nine [supplementary_patterns] (a line starting, after
    optional whitespace and case-insensitively, with table, figure, chart or
    diagram followed by whitespace and a digit, or with appendix followed by
    whitespace and a letter or digit; or a line consisting only of
    reference, references, bibliography, index or glossary), then
    [is_supplementary_content] returns true whatever the other lines are.
    Only "reference" takes an optional plural. *)
Theorem supplementary_header_line t line :
  In line (firstn 3 (filter non_empty_line (split_nl (clean_text_block t)))) ->
  matches_supplementary line = true ->
  is_supplementary_content (clean_text_block t) = true.
Proof.
  intros Hin Hm. apply clean_header_lines in Hin as [Hin Hs].
  unfold is_supplementary_content.
  replace (existsb (fun line => matches_supplementary (strip line))
             (firstn 3 (split_nl (strip (clean_text_block t))))) with true;
    [reflexivity|].
  symmetry. apply existsb_exists. exists line. rewrite Hs. auto.
Qed.

Lemma supplementary_header_line_witness :
  In (chars "Table 3: Revenue by Quarter")
     (firstn 3 (filter non_empty_line (split_nl (clean_text_block
        (lines ["Table 3: Revenue by Quarter"; "12 40"; "13 41"]%string))))) /\
  matches_supplementary (chars "Table 3: Revenue by Quarter") = true /\
  is_supplementary_content
    (clean_text_block (lines ["Table 3: Revenue by Quarter"; "12 40"; "13 41"]%string))
  = true.
Proof.
  assert (H1 : In (chars "Table 3: Revenue by Quarter")
     (firstn 3 (filter non_empty_line (split_nl (clean_text_block
        (lines ["Table 3: Revenue by Quarter"; "12 40"; "13 41"]%string)))))).
  { vm_compute. left; reflexivity. }
  assert (H2 : matches_supplementary (chars "Table 3: Revenue by Quarter") = true)
    by (vm_compute; reflexivity).
  split; [exact H1|]. split; [exact H2|].
  exact (supplementary_header_line _ _ H1 H2).
Defined.

(** C1 counterexample: "Glossaries", the plural of "glossary", heads a
    cleaned block, which is still classified as main content. *)
Lemma supplementary_plural_counterexample :
  clean_text_block (lines ["Glossaries"; "Terms used in this report"]%string)
  = lines ["Glossaries"; "Terms used in this report"]%string /\
  matches_supplementary (chars "Glossaries") = false /\
  is_supplementary_content
    (clean_text_block (lines ["Glossaries"; "Terms used in this report"]%string))
  = false.
Proof. vm_compute. split; [reflexivity|split; reflexivity]. Qed.

(** ** C2, tabular density *)

(** C2 (confirmed). For a cleaned block none of whose first three lines
    matches a supplementary pattern, [is_supplementary_content] returns true
    exactly when the block has more than 3 lines and the lines that look
    tabular (two digit runs separated by whitespace, or more than two tabs)
    are more than 3/10 of all its lines. *)
Theorem tabular_density t :
  let ls := split_nl (clean_text_block t) in
  (forall line, In line (firstn 3 ls) -> matches_supplementary line = false) ->
  is_supplementary_content (clean_text_block t) =
  (3 <? length ls) && (3 * length ls <? 10 * length (filter is_tabular_line ls)).
Proof.
  intros ls H. unfold is_supplementary_content. rewrite strip_clean.
  fold ls.
  replace (existsb (fun line => matches_supplementary (strip line)) (firstn 3 ls))
    with false; [reflexivity|].
  symmetry. apply Bool.not_true_iff_false. intros Hex.
  apply existsb_exists in Hex as [line [Hin Hm]].
  rewrite (lines_of_clean t line) in Hm by (apply (in_firstn_in 3); exact Hin).
  rewrite H in Hm by exact Hin. discriminate.
Qed.

Lemma tabular_density_witness :
  (forall line, In line (firstn 3 (split_nl (clean_text_block scenario_b))) ->
                matches_supplementary line = false) /\
  is_supplementary_content (clean_text_block scenario_b) = true.
Proof.
  assert (H : forall line, In line (firstn 3 (split_nl (clean_text_block scenario_b))) ->
                matches_supplementary line = false).
  { apply none_matches. vm_compute. reflexivity. }
  split; [exact H|].
  rewrite (tabular_density scenario_b H). vm_compute. reflexivity.
Defined.

(** ** C3, what the cleaner keeps *)

(** C3 (code bug). What [clean_text_block] does: it splits its input
    into lines, collapses every run of spaces and tabs of each line to one
    space, strips each line, and keeps, in order, exactly the lines that are
    not boilerplate (shorter than 3 characters, all digits, starting with
    "page" and a number case-insensitively, or equal to "header" or
    "footer"); the kept lines are joined with newlines. Every kept line has
    at least 3 characters, so a non-empty result has no blank line. The
    collapse of three or more blank lines to one blank line, which line 100
    performs, is undone: the length filter of line 111 then removes that
    blank line too. *)
Theorem clean_text_block_lines t :
  clean_text_block t =
    join [NL] (filter (fun line => negb (is_boilerplate line))
                 (map (fun line => strip (re_sub hspace_pat [SPACE] line))
                    (split_nl t))) /\
  (clean_text_block t <> [] ->
   forall line, In line (split_nl (clean_text_block t)) ->
     3 <= length line /\ strip line = line).
Proof.
  split.
  - rewrite clean_text_block_spec. reflexivity.
  - intros Hne line Hl.
    destruct (clean_lines (split_nl t)) as [|l L] eqn:E.
    { rewrite clean_text_block_spec, E in Hne. contradiction. }
    rewrite split_clean in Hl by (rewrite E; discriminate).
    apply clean_good in Hl as [Hk [Hs _]]. split; [|apply stripped_strip, Hs].
    unfold keep_line, is_boilerplate in Hk.
    destruct (length line <? 3) eqn:El; [discriminate|].
    apply Nat.ltb_ge in El. exact El.
Qed.

Lemma clean_text_block_lines_witness :
  clean_text_block (lines ["abc"; "page 2"; "x"; "def"]%string) <> [] /\
  3 <= length (chars "abc") /\ strip (chars "abc") = chars "abc".
Proof.
  assert (H : clean_text_block (lines ["abc"; "page 2"; "x"; "def"]%string) <> [])
    by (vm_compute; discriminate).
  split; [exact H|].
  apply (proj2 (clean_text_block_lines _) H). vm_compute. left; reflexivity.
Defined.

(** C3 failing input: a run of three blank lines between two kept lines
    does not become one blank line; it disappears. *)
Lemma clean_blank_run_counterexample :
  clean_text_block (lines ["abc"; ""; ""; ""; "def"]%string)
    = lines ["abc"; "def"]%string /\
  clean_text_block (lines ["abc"; ""; ""; ""; "def"]%string)
    <> lines ["abc"; ""; "def"]%string.
Proof. vm_compute. split; [reflexivity|discriminate]. Qed.

(** ** C9, idempotence *)

(** C9 (confirmed). Cleaning a cleaned block changes nothing; and a line
    made only of digits (a bare page number such as "4") is removed: the
    text with that line cleans to the same block as the text without it. *)
Theorem clean_text_block_idempotent t x y d :
  d <> [] -> forallb is_digit d = true ->
  clean_text_block (clean_text_block t) = clean_text_block t /\
  clean_text_block (x ++ NL :: d ++ NL :: y) = clean_text_block (x ++ NL :: y).
Proof.
  intros Hne Hd. split.
  - destruct (clean_lines (split_nl t)) as [|l L] eqn:E.
    + rewrite (clean_text_block_spec t), E. reflexivity.
    + rewrite (clean_text_block_spec (clean_text_block t)).
      rewrite split_clean by (rewrite E; discriminate).
      rewrite good_clean_lines by apply clean_good.
      symmetry. apply clean_text_block_spec.
  - rewrite !clean_text_block_spec, !split_app_nl, (split_no_nl d)
      by (apply digits_no_nl, Hd).
    rewrite !clean_lines_app.
    replace (clean_lines [d]) with (@nil text); [reflexivity|].
    unfold clean_lines. simpl.
    rewrite collapse_hspace_id by (apply digits_hs_norm, Hd).
    rewrite stripped_strip by (apply digits_stripped, Hd).
    rewrite digits_boilerplate by assumption. reflexivity.
Qed.

Lemma clean_text_block_idempotent_witness :
  clean_text_block (clean_text_block (lines ["Intro text here"; "4"; "More words"]%string))
    = clean_text_block (lines ["Intro text here"; "4"; "More words"]%string) /\
  clean_text_block (chars "Intro text here" ++ NL :: chars "4" ++ NL :: chars "More words")
    = clean_text_block (chars "Intro text here" ++ NL :: chars "More words").
Proof.
  apply (clean_text_block_idempotent _ _ _ (chars "4")).
  - discriminate.
  - reflexivity.
Defined.

(** * The page markers of [separate_content] *)

Lemma pm_app p1 p2 : forall b s r,
  pm (p1 ++ p2) b s r -> exists m b', pm p1 b s m /\ pm p2 b' m r.
Proof.
  induction p1 as [|[| |cls lo hi] p IH]; simpl; intros b s r H.
  - exists s, b. split; [reflexivity|exact H].
  - destruct H as [Hb H]. destruct (IH _ _ _ H) as [m [b' [H1 H2]]].
    exists m, b'. auto.
  - destruct H as [Hs H]. destruct (IH _ _ _ H) as [m [b' [H1 H2]]].
    exists m, b'. auto.
  - destruct H as [w [s' [E [Hlo [Hhi [Hall Hp]]]]]].
    destruct (IH _ _ _ Hp) as [m [b' [H1 H2]]].
    exists m, b'. split; [exists w, s'; auto|exact H2].
Qed.

Lemma pm_no_bol p : forall b b' s r, no_bol p = true -> pm p b s r -> pm p b' s r.
Proof.
  induction p as [|[| |cls lo hi] p IH]; simpl; intros b b' s r Hn H.
  - exact H.
  - discriminate.
  - destruct H as [Hs H]. split; [exact Hs|]. eapply IH; eassumption.
  - destruct H as [w [s' [E [Hlo [Hhi [Hall Hp]]]]]].
    exists w, s'. repeat split; try assumption. eapply IH; eassumption.
Qed.

Lemma search_from_eq p b s :
  search_from p b s =
  match mtch p b s with
  | Some _ => true
  | None => match s with [] => false | _ :: s' => search_from p false s' end
  end.
Proof. destruct s; reflexivity. Qed.

Lemma search_from_app p u : forall b v r b',
  no_bol p = true -> pm p b' v r -> search_from p b (u ++ v) = true.
Proof.
  induction u as [|c u IH]; intros b v r b' Hn H; rewrite search_from_eq.
  - destruct (mtch_complete p b v r (pm_no_bol p b' b v r Hn H)) as [r' E].
    simpl. rewrite E. reflexivity.
  - destruct (mtch p b ((c :: u) ++ v)); [reflexivity|].
    simpl. eapply IH; eassumption.
Qed.

Lemma split_fuel_match f p : forall b cur s,
  2 <= length (split_fuel f p b cur s) ->
  exists u v b' r, s = u ++ v /\ mtch p b' v = Some r.
Proof.
  induction f as [|f IH]; intros b cur s H; simpl in H; [lia|].
  destruct (mtch p b s) as [r|] eqn:E.
  - exists [], s, b, r. auto.
  - destruct s as [|c s]; [simpl in H; lia|].
    destruct (IH _ _ _ H) as [u [v [b' [r [-> Hm]]]]].
    exists (c :: u), v, b', r. auto.
Qed.

(** When [re.split] finds a marker, [re.search(r'Page\s+(\d+)', text)]
    succeeds: the marker contains such a match. *)
Lemma marker_page t :
  2 <= length (re_split marker_pat t) -> re_search page_search_pat t = true.
Proof.
  unfold re_split, re_search. intros H.
  apply split_fuel_match in H as [u [v [b' [r [-> Hm]]]]].
  apply mtch_sound in Hm.
  change marker_pat with
    ([one is_nl; star is_ws; one is_dash; one is_dash; one is_dash; star is_ws]
     ++ (page_search_pat
         ++ [star is_ws; one is_dash; one is_dash; one is_dash; star is_ws;
             one is_nl])) in Hm.
  apply pm_app in Hm as [m [b1 [H1 H2]]].
  apply pm_app in H2 as [m2 [b2 [H2 _]]].
  apply pm_suffix in H1 as [w ->].
  rewrite app_assoc. eapply search_from_app; [reflexivity|exact H2].
Qed.

(** The loop of [separate_content], read as a filter of the classified
    blocks. *)
Lemma separate_loop_spec whole : forall blocks i m s,
  (1 < i + length blocks -> re_search page_search_pat whole = true) ->
  separate_loop whole i blocks m s =
  (m ++ map fst (filter (fun cb => negb (snd cb)) (classify_from i blocks)),
   s ++ map fst (filter snd (classify_from i blocks))).
Proof.
  induction blocks as [|a rest IH]; intros i m s H.
  - simpl. rewrite !app_nil_r. reflexivity.
  - assert (Hp : (if (0 <? i) && re_search page_search_pat whole
                  then page_marker i ++ a else a) = placed_block i a).
    { unfold placed_block. destruct (0 <? i) eqn:Ei; [|reflexivity].
      apply Nat.ltb_lt in Ei. rewrite H by (simpl; lia). reflexivity. }
    cbn [separate_loop classify_from]. rewrite Hp.
    destruct (is_blank a).
    + apply IH. intros Hl. apply H. simpl. lia.
    + destruct (is_supplementary_content (clean_text_block (placed_block i a)));
        simpl; rewrite IH by (intros Hl; apply H; simpl; lia);
        rewrite <- app_assoc; reflexivity.
Qed.

Lemma separate_content_spec t :
  separate_content t =
  (strip (join [NL; NL] (map fst (filter (fun cb => negb (snd cb)) (classified_blocks t)))),
   strip (join [NL; NL] (map fst (filter snd (classified_blocks t))))).
Proof.
  unfold separate_content, classified_blocks.
  destruct (is_blank t); [reflexivity|].
  rewrite separate_loop_spec by (intros Hl; apply marker_page; lia).
  reflexivity.
Qed.

Lemma classify_from_in i bs cb :
  In cb (classify_from i bs) ->
  exists x, fst cb = clean_text_block x /\ snd cb = is_supplementary_content (fst cb).
Proof.
  revert i. induction bs as [|b bs IH]; simpl; intros i H; [destruct H|].
  destruct (is_blank b); [eapply IH; eassumption|].
  destruct H as [<-|H]; [eexists; split; reflexivity|eapply IH; eassumption].
Qed.

Lemma classified_in t cb :
  In cb (classified_blocks t) ->
  exists x, fst cb = clean_text_block x /\ snd cb = is_supplementary_content (fst cb).
Proof.
  unfold classified_blocks. destruct (is_blank t); [intros []|apply classify_from_in].
Qed.

Lemma classify_from_indexed bs : forall i,
  map fst (classify_from i bs) =
  map (fun ib => clean_text_block (placed_block (fst ib) (snd ib)))
    (filter (fun ib => negb (is_blank (snd ib))) (combine (seq i (length bs)) bs)).
Proof.
  induction bs as [|b bs IH]; intros i; [reflexivity|].
  simpl. destruct (is_blank b); simpl; rewrite IH; reflexivity.
Qed.



Lemma lstrip_nil z : lstrip z = [] -> forallb is_ws z = true.
Proof.
  induction z as [|c z IH]; simpl; [reflexivity|].
  destruct (is_ws c) eqn:E; [exact IH|discriminate].
Qed.

Lemma strip_nonnil x y : x <> [] -> starts_solid x -> strip (x ++ y) <> [].
Proof.
  intros Hne Hs E. unfold strip in E.
  rewrite (lstrip_solid (x ++ y)) in E by (apply starts_solid_app; assumption).
  apply (f_equal (@rev ascii)) in E. rewrite rev_involutive in E.
  apply lstrip_nil in E. rewrite forallb_forall in E.
  destruct x as [|c x]; [congruence|]. simpl in Hs.
  rewrite E in Hs; [discriminate|]. apply in_rev. rewrite rev_involutive. left; reflexivity.
Qed.

Lemma join_head sep l ls : exists y, join sep (l :: ls) = l ++ y.
Proof.
  destruct ls as [|l' ls]; [exists []; rewrite app_nil_r; reflexivity|].
  exists (sep ++ join sep (l' :: ls)). reflexivity.
Qed.

Lemma is_supplementary_content_nil : is_supplementary_content [] = false.
Proof. reflexivity. Qed.

(** The supplementary text is empty exactly when no block is
    supplementary. *)
Lemma supp_text_nil t :
  filter snd (classified_blocks t) <> [] ->
  strip (join [NL; NL] (map fst (filter snd (classified_blocks t)))) <> [].
Proof.
  destruct (filter snd (classified_blocks t)) as [|[c b] L] eqn:E; [congruence|].
  intros _. assert (Hin : In (c, b) (filter snd (classified_blocks t)))
    by (rewrite E; left; reflexivity).
  apply filter_In in Hin as [Hin Hb]. simpl in Hb. subst b.
  apply classified_in in Hin as [x [Hc Hs]]. simpl in Hc, Hs.
  simpl map. destruct (join_head [NL; NL] c (map fst L)) as [y ->].
  assert (Hne : c <> []) by (intros ->; rewrite is_supplementary_content_nil in Hs; discriminate).
  apply strip_nonnil; [exact Hne|].
  rewrite Hc, <- strip_clean. apply strip_is_stripped.
Qed.

(** ** C4, the assembled output *)

(** C4 (confirmed). The output of [extract_text_from_pdf] for a raw text
    is [main_text], the cleaned main blocks in their order joined by a blank
    line (then stripped), followed, exactly when some block is
    supplementary, by the banner (two newlines, 60 '=', a newline,
    SUPPLEMENTARY CONTENT, a newline, 60 '=', two newlines) and
    [supplementary_text], the supplementary blocks in their order joined in
    the same way. When no block is supplementary no banner appears. *)
Theorem organize_layout t :
  organize t =
  strip (join [NL; NL] (map fst (filter (fun cb => negb (snd cb)) (classified_blocks t))))
  ++ match filter snd (classified_blocks t) with
     | [] => []
     | _ => banner ++ strip (join [NL; NL] (map fst (filter snd (classified_blocks t))))
     end.
Proof.
  unfold organize. rewrite separate_content_spec. unfold assemble. f_equal.
  pose proof (supp_text_nil t) as H.
  destruct (filter snd (classified_blocks t)) as [|cb L]; [reflexivity|].
  destruct (strip (join [NL; NL] (map fst (cb :: L)))) eqn:E; [|reflexivity].
  exfalso. apply H; [discriminate|reflexivity].
Qed.

(** ** C10, the partition of the blocks *)

(** C10 (confirmed). The loop of [separate_content] over the pieces of
    [re.split] puts each cleaned non-blank piece in exactly one of its two
    lists, following its classification, and in order; blank pieces are
    dropped; the piece at index [i > 0] is cleaned with its page marker
    line put back in front. A blank or empty input gives two empty
    strings. *)
Theorem separate_content_partition t :
  let blocks := re_split marker_pat t in
  separate_loop t 0 blocks [] [] =
    (map fst (filter (fun cb => negb (snd cb)) (classify_from 0 blocks)),
     map fst (filter snd (classify_from 0 blocks))) /\
  map fst (classify_from 0 blocks) =
    map (fun ib => clean_text_block (placed_block (fst ib) (snd ib)))
      (filter (fun ib => negb (is_blank (snd ib))) (indexed blocks)) /\
  (forall cb, In cb (classify_from 0 blocks) ->
     snd cb = is_supplementary_content (fst cb)) /\
  (is_blank t = true -> separate_content t = ([], [])).
Proof.
  cbv zeta. split; [|split; [|split]].
  - rewrite separate_loop_spec by (intros Hl; apply marker_page; lia).
    reflexivity.
  - apply classify_from_indexed.
  - intros cb Hcb. apply classify_from_in in Hcb as [x [_ H]]. exact H.
  - intros H. unfold separate_content. rewrite H. reflexivity.
Qed.

Lemma separate_content_partition_witness :
  is_blank (chars "   ") = true /\ separate_content (chars "   ") = ([], []).
Proof.
  assert (H : is_blank (chars "   ") = true) by reflexivity.
  split; [exact H|].
  exact (proj2 (proj2 (proj2 (separate_content_partition (chars "   ")))) H).
Defined.

(** ** C8, what a classification depends on *)



(** ** C5, the two-page example *)

(** C5 (corrected). Amended claim: on the stream
    "--- Page 1 ---\nIntro text.\n--- Page 2 ---\nTable 1\n1 2\n3 4",
    [separate_content] gives the main text
    "--- Page 1 ---\nIntro text." (the first marker has no newline before
    it, so it is not split off and stays in the first block) and, as the
    supplementary text, the Table 1 block "Table 1\n1 2\n3 4" behind the
    page marker line "--- Page k ---" that [separate_content] puts back in
    front of it; the output is the main text, the banner with
    SUPPLEMENTARY CONTENT, and the supplementary text. *)
Theorem two_page_scenario :
  fst (separate_content scenario_stream) =
    lines ["--- Page 1 ---"; "Intro text."]%string /\
  (exists k, snd (separate_content scenario_stream) =
     chars "--- Page " ++ str_of_nat k ++ chars " ---" ++
     NL :: lines ["Table 1"; "1 2"; "3 4"]%string) /\
  organize scenario_stream =
    fst (separate_content scenario_stream) ++ banner ++
    snd (separate_content scenario_stream).
Proof.
  assert (E : separate_content scenario_stream =
    (lines ["--- Page 1 ---"; "Intro text."]%string,
     lines ["--- Page 1 ---"; "Table 1"; "1 2"; "3 4"]%string))
    by (vm_compute; reflexivity).
  unfold organize. rewrite E. cbn [fst snd]. split; [reflexivity|]. split.
  - exists 1. vm_compute. reflexivity.
  - reflexivity.
Qed.

(** C5 counterexample: the main text is not "Intro text.". *)
Lemma two_page_main_counterexample :
  fst (separate_content scenario_stream) <> chars "Intro text.".
Proof. vm_compute. discriminate. Qed.

(** ** C6, when OCR runs *)

Lemma app_pages_text n pages acc :
  (forall p, In p pages -> p <> Fails) ->
  exists r, app_pages n pages acc = Some r /\
    (is_blank acc = false \/ existsb has_text pages = true -> is_blank r = false).
Proof.
  revert n acc. induction pages as [|p pages IH]; intros n acc Hnf.
  - exists acc. split; [reflexivity|]. intros [H|H]; [exact H|discriminate].
  - destruct p as [s|]; [|exfalso; apply (Hnf Fails); [left|]; reflexivity].
    destruct (IH (S n) (if is_blank s then acc else acc ++ page_marker n ++ s))
      as [r [Hr Hb]]; [intros q Hq; apply Hnf; right; exact Hq|].
    exists r. split; [exact Hr|]. intros H. apply Hb.
    simpl in H. destruct (is_blank s) eqn:Es; simpl in H.
    + exact H.
    + left. unfold is_blank. rewrite !forallb_app. fold (is_blank s). rewrite Es.
      rewrite !andb_false_r. reflexivity.
Qed.

Lemma app_extract_log f : ~ In OcrCalled (snd (app_extract f)).
Proof.
  unfold app_extract. destruct f as [|pages]; simpl; [intuition discriminate|].
  destruct (app_pages 1 pages []) as [text|]; simpl; [|intuition discriminate].
  destruct (negb (is_blank text)); simpl; intuition discriminate.
Qed.

(** [process] logs the call of the OCR routine exactly when the direct
    extraction gives no text. *)
Lemma app_process_ocr f ocr :
  In OcrCalled (fst (app_process ocr f)) <-> falsy (fst (app_extract f)) = true.
Proof.
  pose proof (app_extract_log f) as Hl. unfold app_process.
  destruct (app_extract f) as [text log]. simpl in *.
  destruct (falsy text) eqn:Ft.
  - split; [reflexivity|intros _].
    destruct (falsy ocr); simpl; rewrite ?in_app_iff; simpl; auto.
  - simpl. rewrite Ft. simpl. split; [intros H; contradiction|discriminate].
Qed.

(** C6 (code bug). In src/app.py the OCR routine is called exactly when
    [extract_text_from_pdf] gives no text. If no page raises and some page
    has text, OCR is not called. But a page whose extraction raises makes
    the whole extraction fail (no [try] around a page), and OCR is then
    called although another page had text: a document whose first page
    reads "Hello" and whose second page raises. *)
Theorem app_ocr_fallback :
  (forall pages ocr,
     (forall p, In p pages -> p <> Fails) -> existsb has_text pages = true ->
     ~ In OcrCalled (fst (app_process ocr (Readable pages)))) /\
  existsb has_text [Text (chars "Hello"); Fails] = true /\
  fst (app_process None (Readable [Text (chars "Hello"); Fails])) =
    [Checking 2; ErrorReading; FallingBack; OcrCalled; FailedAll].
Proof.
  split; [|split; reflexivity].
  intros pages ocr Hnf Ht. rewrite app_process_ocr.
  destruct (app_pages_text 1 pages [] Hnf) as [r [Hr Hb]].
  specialize (Hb (or_intror Ht)).
  unfold app_extract. rewrite Hr, Hb. simpl.
  destruct r; [discriminate|]. discriminate.
Qed.

Lemma app_ocr_fallback_witness :
  (forall p, In p [Text (chars "Hello")] -> p <> Fails) /\
  existsb has_text [Text (chars "Hello")] = true /\
  ~ In OcrCalled (fst (app_process None (Readable [Text (chars "Hello")]))).
Proof.
  assert (H1 : forall p, In p [Text (chars "Hello")] -> p <> Fails)
    by (intros p [<-|[]]; discriminate).
  assert (H2 : existsb has_text [Text (chars "Hello")] = true) by reflexivity.
  split; [exact H1|]. split; [exact H2|].
  exact (proj1 app_ocr_fallback _ None H1 H2).
Defined.

(** ** C7, a page that cannot be read *)

Lemma bpp_pages_log n pages raw log :
  exists extra, snd (bpp_pages n pages raw log) = log ++ extra.
Proof.
  revert n raw log. induction pages as [|[s|] pages IH]; intros n raw log; simpl.
  - exists []. rewrite app_nil_r. reflexivity.
  - apply IH.
  - destruct (IH (S n) raw (log ++ [WarnPage n])) as [e He].
    exists (WarnPage n :: e). rewrite He, <- app_assoc. reflexivity.
Qed.

Lemma bpp_pages_text n pages raw log log' :
  fst (bpp_pages n pages raw log) = fst (bpp_pages n pages raw log').
Proof.
  revert n raw log log'. induction pages as [|[s|] pages IH]; intros n raw log log';
    simpl; [reflexivity|apply IH|apply IH].
Qed.

(** A failing page at position [k] (counted from [n]) adds the warning
    for page [n + k] and nothing to the text. *)
Lemma bpp_pages_fail pre : forall post n raw log,
  fst (bpp_pages n (pre ++ Fails :: post) raw log) =
    fst (bpp_pages n (pre ++ Text [] :: post) raw log) /\
  In (WarnPage (n + length pre)) (snd (bpp_pages n (pre ++ Fails :: post) raw log)).
Proof.
  induction pre as [|[s|] pre IH]; intros post n raw log; simpl.
  - split; [apply bpp_pages_text|].
    destruct (bpp_pages_log (S n) post raw (log ++ [WarnPage n])) as [e ->].
    rewrite Nat.add_0_r. apply in_or_app. left. apply in_or_app. right. left.
    reflexivity.
  - rewrite <- Nat.add_succ_comm. apply IH.
  - rewrite <- Nat.add_succ_comm. destruct (IH post (S n) raw (log ++ [WarnPage n]))
      as [H1 H2]. split; [|exact H2].
    rewrite H1. apply bpp_pages_text.
Qed.

(** C7 (code bug). In src/bpp.py a page whose extraction raises is logged
    with its number and adds nothing, as an empty page would, and the
    other pages are still read. In src/app.py there is no [try] around a
    page: on a document whose first page reads "Hello" and whose second
    page raises, the whole extraction fails ("Error reading PDF", no text),
    while with an empty second page the text of the first page is found. *)
Theorem page_failure_handling :
  (forall pre post,
     fst (bpp_extract (Readable (pre ++ Fails :: post))) =
       fst (bpp_extract (Readable (pre ++ Text [] :: post))) /\
     In (WarnPage (S (length pre))) (snd (bpp_extract (Readable (pre ++ Fails :: post))))) /\
  app_extract (Readable [Text (chars "Hello"); Fails]) = (None, [Checking 2; ErrorReading]) /\
  app_extract (Readable [Text (chars "Hello"); Text []]) =
    (Some (page_marker 1 ++ chars "Hello"), [Checking 2; FoundText]).
Proof.
  split; [|split; reflexivity].
  intros pre post. unfold bpp_extract.
  replace (length (pre ++ Text [] :: post)) with (length (pre ++ Fails :: post))
    by (rewrite !length_app; reflexivity).
  destruct (bpp_pages_fail pre post 1 [] [Checking (length (pre ++ Fails :: post))])
    as [H1 H2].
  destruct (bpp_pages 1 (pre ++ Fails :: post) [] _) as [raw log].
  destruct (bpp_pages 1 (pre ++ Text [] :: post) [] _) as [raw' log'].
  simpl in H1, H2. subst raw'. split; [destruct (is_blank raw); reflexivity|].
  destruct (is_blank raw); simpl; apply in_or_app; left; exact H2.
Qed.

(** * Further properties of the program *)

(** ** Spacing of a cleaned block *)

Lemma hs_norm_app_nl x y :
  hs_norm x = true -> hs_norm y = true -> hs_norm (x ++ NL :: y) = true.
Proof.
  induction x as [|c x IH]; intros Hx Hy.
  - simpl. rewrite Hy. reflexivity.
  - simpl in Hx |- *. apply andb_true_iff in Hx as [Hc Hx].
    rewrite (IH Hx Hy), andb_true_r.
    destruct x as [|d x]; [|exact Hc].
    apply andb_true_iff in Hc as [Hc _]. rewrite Hc.
    destruct (Ascii.eqb c SPACE); reflexivity.
Qed.

Lemma hs_norm_join L :
  (forall l, In l L -> hs_norm l = true) -> hs_norm (join [NL] L) = true.
Proof.
  induction L as [|l L IH]; intros H; [reflexivity|].
  destruct L as [|l' L]; [apply H; left; reflexivity|].
  rewrite join_cons by discriminate.
  apply hs_norm_app_nl; [apply H; left; reflexivity|].
  apply IH. intros l0 Hl0. apply H. right; exact Hl0.
Qed.

Lemma hs_norm_no_tab s : hs_norm s = true -> ~ In TAB s.
Proof.
  induction s as [|c s IH]; simpl; intros H; [auto|].
  apply andb_true_iff in H as [H Hs]. apply andb_true_iff in H as [Ht _].
  intros [E|Hin]; [subst c; discriminate|exact (IH Hs Hin)].
Qed.

Lemma hs_norm_no_double s :
  hs_norm s = true -> forall x y, s <> x ++ SPACE :: SPACE :: y.
Proof.
  induction s as [|c s IH]; intros H x y E; [destruct x; discriminate|].
  simpl in H. apply andb_true_iff in H as [H Hs]. apply andb_true_iff in H as [_ Hsp].
  destruct x as [|d x].
  - simpl in E. injection E as -> ->. discriminate.
  - injection E as _ E. exact (IH Hs x y E).
Qed.

(** [clean_text_block] leaves no tab and no two spaces in a row anywhere in
    the block. *)
Theorem clean_text_block_spacing t :
  ~ In TAB (clean_text_block t) /\
  forall x y, clean_text_block t <> x ++ SPACE :: SPACE :: y.
Proof.
  assert (H : hs_norm (clean_text_block t) = true).
  { rewrite clean_text_block_spec. apply hs_norm_join.
    intros l Hl. apply clean_good in Hl as [_ [_ [_ Hn]]]. exact Hn. }
  split; [apply hs_norm_no_tab, H|apply hs_norm_no_double, H].
Qed.

(** ** The raw text of [extract_text_from_pdf] *)

Lemma bpp_pages_closed pages : forall n raw log,
  bpp_pages n pages raw log =
  (raw ++ concat (map (fun np => match snd np with
                                 | Text s => if is_blank s then [] else page_marker (fst np) ++ s
                                 | Fails => []
                                 end) (combine (seq n (length pages)) pages)),
   log ++ flat_map (fun np => match snd np with
                              | Fails => [WarnPage (fst np)]
                              | Text _ => []
                              end) (combine (seq n (length pages)) pages)).
Proof.
  induction pages as [|[s|] pages IH]; intros n raw log;
    cbn [bpp_pages length seq combine map concat flat_map fst snd].
  - rewrite !app_nil_r. reflexivity.
  - rewrite IH. destruct (is_blank s); rewrite ?app_assoc, ?app_nil_r; reflexivity.
  - rewrite IH. rewrite <- app_assoc. reflexivity.
Qed.

(** src/bpp.py reads a PDF into the text that, for each page in order
    whose extracted text is not blank, holds the line
    "--- Page n ---" with the page's 1-based number and then the page's
    text; a page whose extraction raises adds nothing and one warning
    naming its number. The result is that text organized, or nothing when
    it is blank. *)
Theorem bpp_extract_pages pages :
  let numbered := combine (seq 1 (length pages)) pages in
  let raw_text := concat (map (fun np => match snd np with
                                 | Text s => if is_blank s then [] else page_marker (fst np) ++ s
                                 | Fails => []
                                 end) numbered) in
  let warnings := flat_map (fun np => match snd np with
                              | Fails => [WarnPage (fst np)]
                              | Text _ => []
                              end) numbered in
  bpp_extract (Readable pages) =
  if is_blank raw_text
  then (None, Checking (length pages) :: warnings ++ [NoText])
  else (Some (organize raw_text), Checking (length pages) :: warnings ++ [FoundText; Organized]).
Proof.
  cbv zeta. unfold bpp_extract. rewrite bpp_pages_closed. reflexivity.
Qed.

Lemma app_pages_bpp pages : forall n acc log,
  (forall p, In p pages -> p <> Fails) ->
  app_pages n pages acc = Some (fst (bpp_pages n pages acc log)).
Proof.
  induction pages as [|[s|] pages IH]; intros n acc log H; simpl.
  - reflexivity.
  - apply IH. intros p Hp. apply H. right; exact Hp.
  - exfalso. apply (H Fails); [left|]; reflexivity.
Qed.

(** When no page raises, src/bpp.py finds text exactly when src/app.py
    does, and its result is app.py's text organized by
    [separate_content]. *)
Theorem app_bpp_agree f :
  (forall p, match f with Readable pages => In p pages | Unreadable => False end ->
             p <> Fails) ->
  fst (bpp_extract f) = option_map organize (fst (app_extract f)).
Proof.
  destruct f as [|pages]; intros H; [reflexivity|].
  unfold bpp_extract, app_extract.
  rewrite (app_pages_bpp pages 1 [] [Checking (length pages)] H).
  destruct (bpp_pages 1 pages [] [Checking (length pages)]) as [raw log]. simpl.
  destruct (is_blank raw); reflexivity.
Qed.

Lemma app_bpp_agree_witness :
  (forall p, In p [Text (chars "Table 1"); Text (chars "1 2")] -> p <> Fails) /\
  fst (bpp_extract (Readable [Text (chars "Table 1"); Text (chars "1 2")])) =
  option_map organize (fst (app_extract (Readable [Text (chars "Table 1"); Text (chars "1 2")]))).
Proof.
  assert (H : forall p, In p [Text (chars "Table 1"); Text (chars "1 2")] -> p <> Fails)
    by (intros p [<-|[<-|[]]]; discriminate).
  split; [exact H|]. exact (app_bpp_agree (Readable _) H).
Defined.

(** ** The guard of [separate_content] *)

(** In [separate_content], [re.search(r'Page\s+(\d+)', text)] holds
    whenever the loop reaches a block of index [i > 0]: the marker that
    split the text off contains such a match. So every block after the
    first is cleaned with its page marker in front. *)
Theorem separate_content_guard t i block :
  nth_error (re_split marker_pat t) i = Some block -> 0 < i ->
  re_search page_search_pat t = true.
Proof.
  intros Hn Hi. apply marker_page.
  assert (i < length (re_split marker_pat t)) by (apply nth_error_Some; congruence).
  lia.
Qed.

Lemma separate_content_guard_witness :
  nth_error (re_split marker_pat (lines ["Intro"; "--- Page 3 ---"; "More"]%string)) 1
    = Some (chars "More") /\ 0 < 1 /\
  re_search page_search_pat (lines ["Intro"; "--- Page 3 ---"; "More"]%string) = true.
Proof.
  assert (H : nth_error (re_split marker_pat (lines ["Intro"; "--- Page 3 ---"; "More"]%string)) 1
    = Some (chars "More")) by (vm_compute; reflexivity).
  split; [exact H|]. split; [lia|]. exact (separate_content_guard _ 1 _ H ltac:(lia)).
Defined.

(** ** Which paths [validate_pdf] accepts, and the output file *)

Lemma text_eqb_true a b : text_eqb a b = true <-> a = b.
Proof.
  unfold text_eqb. destruct (list_eq_dec ascii_dec a b); split; congruence.
Qed.

Lemma rfind_from_app c x : forall y i f,
  rfind_from c (x ++ y) i f = rfind_from c y (i + length x) (rfind_from c x i f).
Proof.
  induction x as [|d x IH]; intros y i f; simpl.
  - rewrite Nat.add_0_r. reflexivity.
  - rewrite IH. f_equal. lia.
Qed.

Lemma rfind_from_none c z : forall i f,
  forallb (fun d => negb (Ascii.eqb d c)) z = true -> rfind_from c z i f = f.
Proof.
  induction z as [|d z IH]; intros i f H; simpl in *; [reflexivity|].
  apply andb_true_iff in H as [Hd Hz]. apply negb_true_iff in Hd. rewrite Hd.
  apply IH, Hz.
Qed.

Lemma lower_dot c : lower c = DOT -> c = DOT.
Proof.
  unfold lower. destruct ((65 <=? nat_of_ascii c) && (nat_of_ascii c <=? 90)) eqn:E;
    [|auto].
  intros H. apply (f_equal nat_of_ascii) in H.
  apply andb_true_iff in E as [E1 E2]. apply Nat.leb_le in E1, E2.
  rewrite nat_ascii_embedding in H by lia. change (nat_of_ascii DOT) with 46 in H. lia.
Qed.

(** [validate_pdf] accepts a path exactly when the file exists and the
    path's last component is a non-empty stem followed by ".pdf" in any
    letter case; a file named ".pdf", or "report.pdf.bak", is refused. *)
Theorem validate_pdf_accepts pdf_exists pdf_path :
  fst (validate_pdf pdf_exists pdf_path) = true <->
  pdf_exists = true /\
  exists stem ext, path_name pdf_path = stem ++ ext /\ stem <> [] /\
                   lower_str ext = chars ".pdf".
Proof.
  unfold validate_pdf. destruct pdf_exists; simpl;
    [|split; [discriminate|intros [H _]; discriminate]].
  unfold path_suffix. set (name := path_name pdf_path). split.
  - destruct (rfind DOT name) as [i|] eqn:R;
      [destruct ((0 <? i) && (i <? length name - 1)) eqn:C|]; simpl;
      try (intros H; discriminate H).
    destruct (text_eqb (lower_str (skipn i name)) _) eqn:E;
      simpl; [intros _|intros H; discriminate H].
    apply text_eqb_true in E.
    apply andb_true_iff in C as [C1 C2]. apply Nat.ltb_lt in C1, C2.
    split; [reflexivity|]. exists (firstn i name), (skipn i name).
    split; [symmetry; apply firstn_skipn|]. split; [|exact E].
    intros Hf. apply (f_equal (@length ascii)) in Hf.
    rewrite length_firstn in Hf. simpl in Hf. lia.
  - intros [_ [x [d [Hn [Hx Hd]]]]]. fold name in Hn.
    destruct d as [|c0 [|c1 [|c2 [|c3 [|c4 d]]]]]; try discriminate Hd.
    change (chars ".pdf") with [DOT; "p"; "d"; "f"]%char in Hd.
    cbn [lower_str map] in Hd. injection Hd as H0 H1 H2 H3.
    apply lower_dot in H0. subst c0.
    assert (R : rfind DOT name = Some (length x)).
    { unfold rfind. rewrite Hn, rfind_from_app. cbn [rfind_from].
      rewrite Ascii.eqb_refl.
      destruct (Ascii.eqb c1 DOT) eqn:E1;
        [apply Ascii.eqb_eq in E1; subst c1; vm_compute in H1; discriminate H1|].
      destruct (Ascii.eqb c2 DOT) eqn:E2;
        [apply Ascii.eqb_eq in E2; subst c2; vm_compute in H2; discriminate H2|].
      destruct (Ascii.eqb c3 DOT) eqn:E3;
        [apply Ascii.eqb_eq in E3; subst c3; vm_compute in H3; discriminate H3|].
      reflexivity. }
    rewrite R, Hn, length_app. cbn [length].
    assert (Hl : 0 < length x) by (destruct x; [congruence|simpl; lia]).
    replace ((0 <? length x) && (length x <? length x + 4 - 1)) with true
      by (symmetry; apply andb_true_iff; split; apply Nat.ltb_lt; lia).
    rewrite skipn_app, skipn_all, Nat.sub_diag. cbn [skipn app].
    replace (text_eqb _ _) with true; [reflexivity|].
    symmetry. apply text_eqb_true. cbn [lower_str map]. rewrite H1, H2, H3.
    reflexivity.
Qed.

Lemma stem_suffix p : path_stem p ++ path_suffix p = path_name p.
Proof.
  unfold path_stem, path_suffix. destruct (rfind DOT (path_name p));
    [destruct ((_ <? _) && _)|]; rewrite ?app_nil_r; [apply firstn_skipn|..]; reflexivity.
Qed.

(** For a path [validate_pdf] accepts, the last component is the stem
    followed by the suffix, and the output file [stem.txt] has another name
    than the PDF: when run in the PDF's own directory, the program never
    writes over its input. *)
Theorem output_name_differs pdf_exists pdf_path :
  fst (validate_pdf pdf_exists pdf_path) = true ->
  path_stem pdf_path ++ path_suffix pdf_path = path_name pdf_path /\
  output_name pdf_path <> path_name pdf_path.
Proof.
  intros H. split; [apply stem_suffix|]. unfold output_name. rewrite <- stem_suffix.
  intros E. apply app_inv_head in E.
  unfold validate_pdf in H. destruct pdf_exists; [|discriminate].
  rewrite <- E in H. discriminate H.
Qed.

Lemma output_name_differs_witness :
  fst (validate_pdf true (chars "docs/Report.PDF")) = true /\
  path_stem (chars "docs/Report.PDF") ++ path_suffix (chars "docs/Report.PDF")
    = path_name (chars "docs/Report.PDF") /\
  output_name (chars "docs/Report.PDF") <> path_name (chars "docs/Report.PDF").
Proof.
  assert (H : fst (validate_pdf true (chars "docs/Report.PDF")) = true)
    by (vm_compute; reflexivity).
  split; [exact H|]. exact (output_name_differs _ _ H).
Defined.

(** ** Reading the path from the terminal *)

Lemma lstrip_lstrip s : lstrip (lstrip s) = lstrip s.
Proof. apply lstrip_solid, lstrip_starts. Qed.

Lemma strip_nil_blank s : strip s = [] <-> is_blank s = true.
Proof.
  split.
  - intros E. destruct (lstrip s) as [|c y] eqn:L; [apply lstrip_nil, L|].
    exfalso. pose proof (lstrip_starts s) as Hs. rewrite L in Hs.
    apply (strip_nonnil [c] y); [discriminate|exact Hs|].
    cbn [app]. rewrite <- L. unfold strip. rewrite lstrip_lstrip. exact E.
  - intros H. unfold strip. rewrite (lstrip_blank s H). reflexivity.
Qed.

Lemma text_eqb_strip s : text_eqb (strip s) [] = is_blank s.
Proof.
  destruct (text_eqb (strip s) []) eqn:E, (is_blank s) eqn:B; try reflexivity.
  - apply text_eqb_true, strip_nil_blank in E. congruence.
  - apply strip_nil_blank, text_eqb_true in B. congruence.
Qed.

Lemma prompt_blanks home user_home blanks tail :
  forallb is_blank blanks = true ->
  prompt_for_pdf_path home user_home (blanks ++ tail) =
    let '(log, r) := prompt_for_pdf_path home user_home tail in
    (flat_map (fun _ => [AskPath; PleaseEnter]) blanks ++ log, r).
Proof.
  induction blanks as [|b blanks IH]; cbn [forallb app flat_map]; intros H.
  - destruct (prompt_for_pdf_path home user_home tail). reflexivity.
  - apply andb_true_iff in H as [Hb H]. cbn [prompt_for_pdf_path].
    rewrite text_eqb_strip, Hb, (IH H).
    destruct (prompt_for_pdf_path home user_home tail). reflexivity.
Qed.

Lemma lstrip_by_all f s : forallb f s = true -> lstrip_by f s = [].
Proof.
  induction s as [|c s IH]; cbn [lstrip_by forallb]; [reflexivity|].
  intros H. apply andb_true_iff in H as [H1 H2]. rewrite H1. apply IH, H2.
Qed.

(** [prompt_for_pdf_path] asks again after each blank or whitespace-only
    line, saying so each time, and returns the first other line with its
    whitespace stripped, then the quote characters at both of its ends,
    then [~] expanded. When the input runs out before such a line, it
    ends with no path ([input()] raises [EOFError]). *)
Theorem prompt_first_nonblank home user_home blanks :
  forallb is_blank blanks = true ->
  prompt_for_pdf_path home user_home blanks =
    (flat_map (fun _ => [AskPath; PleaseEnter]) blanks ++ [AskPath], None) /\
  forall line rest, is_blank line = false ->
  prompt_for_pdf_path home user_home (blanks ++ line :: rest) =
    (flat_map (fun _ => [AskPath; PleaseEnter]) blanks ++ [AskPath],
     Some (expanduser home user_home (strip_by is_quote (strip line)))).
Proof.
  intros H. split.
  - rewrite <- (app_nil_r blanks) at 1. rewrite (prompt_blanks _ _ _ _ H).
    reflexivity.
  - intros line rest Hl. rewrite (prompt_blanks _ _ _ _ H).
    cbn [prompt_for_pdf_path]. rewrite text_eqb_strip, Hl. reflexivity.
Qed.

Lemma prompt_first_nonblank_witness :
  forallb is_blank [chars "  "; []] = true /\
  prompt_for_pdf_path (Some (chars "/home/ana/")) (fun _ => None)
    ([chars "  "; []] ++ chars " '~/doc.pdf' " :: []) =
    (flat_map (fun _ => [AskPath; PleaseEnter]) [chars "  "; []] ++ [AskPath],
     Some (expanduser (Some (chars "/home/ana/")) (fun _ => None)
             (strip_by is_quote (strip (chars " '~/doc.pdf' "))))).
Proof.
  assert (H : forallb is_blank [chars "  "; []] = true) by (vm_compute; reflexivity).
  split; [exact H|].
  apply (proj2 (prompt_first_nonblank (Some (chars "/home/ana/")) (fun _ => None) _ H)).
  vm_compute. reflexivity.
Defined.

(** A line made only of quote characters, with whitespace around them, is
    not asked for again: [prompt_for_pdf_path] returns the empty path, and
    [validate_pdf] refuses that path whether or not [Path('')] exists. *)
Theorem prompt_quotes_only home user_home line rest :
  is_blank line = false -> forallb is_quote (strip line) = true ->
  snd (prompt_for_pdf_path home user_home (line :: rest)) = Some [] /\
  forall pdf_exists, fst (validate_pdf pdf_exists []) = false.
Proof.
  intros Hb Hq. split.
  - cbn [prompt_for_pdf_path]. rewrite text_eqb_strip, Hb. cbn [snd].
    unfold strip_by. rewrite (lstrip_by_all _ _ Hq). reflexivity.
  - intros [|]; reflexivity.
Qed.

Lemma prompt_quotes_only_witness :
  is_blank (chars " '' ") = false /\ forallb is_quote (strip (chars " '' ")) = true /\
  snd (prompt_for_pdf_path None (fun _ => None) [chars " '' "]) = Some [] /\
  forall pdf_exists, fst (validate_pdf pdf_exists []) = false.
Proof.
  assert (H1 : is_blank (chars " '' ") = false) by (vm_compute; reflexivity).
  assert (H2 : forallb is_quote (strip (chars " '' ")) = true) by (vm_compute; reflexivity).
  split; [exact H1|]. split; [exact H2|].
  exact (prompt_quotes_only None (fun _ => None) _ [] H1 H2).
Defined.

(** [os.path.expanduser] replaces a leading [~/] by [$HOME] without its
    trailing slashes, so a home of ["/"] gives ["/rest"], and leaves the
    path alone when there is no home to use; a path that does not start
    with [~] is never changed. *)
Theorem expanduser_home home user_home r :
  expanduser home user_home (TILDE :: SLASH :: r) =
    match home with
    | None => TILDE :: SLASH :: r
    | Some h => rev (lstrip_by (fun x => Ascii.eqb x SLASH) (rev h)) ++ SLASH :: r
    end /\
  forall path, hd_error path <> Some TILDE -> expanduser home user_home path = path.
Proof.
  split.
  - unfold expanduser. rewrite Ascii.eqb_refl. cbn [negb find_char].
    rewrite Ascii.eqb_refl. cbn [Nat.eqb].
    destruct home as [h|]; [|reflexivity]. cbn [skipn].
    destruct (rev (lstrip_by (fun x => Ascii.eqb x SLASH) (rev h))); reflexivity.
  - intros [|c rest] H; [reflexivity|]. unfold expanduser.
    destruct (Ascii.eqb c TILDE) eqn:E; [|reflexivity].
    apply Ascii.eqb_eq in E. subst c. exfalso. apply H. reflexivity.
Qed.

Lemma expanduser_home_witness :
  expanduser (Some (chars "/")) (fun _ => None) (TILDE :: SLASH :: chars "a.pdf") =
    chars "/a.pdf" /\
  hd_error (chars "a.pdf") <> Some TILDE /\
  expanduser None (fun _ => None) (chars "a.pdf") = chars "a.pdf".
Proof.
  split; [exact (proj1 (expanduser_home (Some (chars "/")) (fun _ => None) (chars "a.pdf")))|].
  assert (H : hd_error (chars "a.pdf") <> Some TILDE) by (vm_compute; discriminate).
  split; [exact H|].
  exact (proj2 (expanduser_home None (fun _ => None) []) _ H).
Defined.

(** ** OCR *)

Lemma ocr_pages_text ts : forall k n acc log,
  ocr_pages k n (map OcrText ts) acc log =
    (inl (acc ++ ocr_text_of k ts), log ++ map (fun j => OcrPage j n) (seq k (length ts))).
Proof.
  unfold ocr_text_of.
  induction ts as [|t ts IH]; intros k n acc log;
    cbn [map ocr_pages length seq combine concat fst snd].
  - rewrite !app_nil_r. reflexivity.
  - rewrite IH. destruct (is_blank t); rewrite <- ?app_assoc; reflexivity.
Qed.

Lemma ocr_pages_raise ts msg rest : forall k n acc log,
  ocr_pages k n (map OcrText ts ++ OcrRaises msg :: rest) acc log =
    (inr msg, log ++ map (fun j => OcrPage j n) (seq k (S (length ts)))).
Proof.
  induction ts as [|t ts IH]; intros k n acc log;
    cbn [map app ocr_pages length seq].
  - reflexivity.
  - rewrite IH. rewrite <- app_assoc. reflexivity.
Qed.

(** When every image is read, [ocr_pdf_to_text] logs each page, keeps
    the pages with non-blank text behind their page markers, and returns
    that text, or nothing when it is blank. *)
Theorem ocr_pdf_to_text_pages ts :
  ts <> [] ->
  let n := length ts in
  let log := [Converting; OcrPages n] ++ map (fun j => OcrPage j n) (seq 1 n) in
  ocr_pdf_to_text (Images (map OcrText ts)) =
    if is_blank (ocr_text_of 1 ts) then (None, log ++ [OcrNoText])
    else (Some (ocr_text_of 1 ts), log ++ [OcrDone]).
Proof.
  destruct ts as [|t ts]; [congruence|]. intros _. cbv zeta.
  unfold ocr_pdf_to_text. cbn [map].
  change (OcrText t :: map OcrText ts) with (map OcrText (t :: ts)).
  rewrite ocr_pages_text, length_map. reflexivity.
Qed.

Lemma ocr_pdf_to_text_pages_witness :
  [chars "Hello"; chars "  "] <> [] /\
  ocr_pdf_to_text (Images (map OcrText [chars "Hello"; chars "  "])) =
    (Some (ocr_text_of 1 [chars "Hello"; chars "  "]),
     [Converting; OcrPages 2; OcrPage 1 2; OcrPage 2 2; OcrDone]).
Proof.
  assert (H : [chars "Hello"; chars "  "] <> []) by discriminate.
  split; [exact H|]. rewrite (ocr_pdf_to_text_pages _ H). vm_compute. reflexivity.
Defined.

(** An image on which OCR raises ends [ocr_pdf_to_text]: the later pages
    are never read, and the text of the earlier pages is lost with the
    whole result. *)
Theorem ocr_stops_at_failure ts msg rest :
  let n := length ts + S (length rest) in
  ocr_pdf_to_text (Images (map OcrText ts ++ OcrRaises msg :: rest)) =
    (None, [Converting; OcrPages n] ++ map (fun j => OcrPage j n) (seq 1 (S (length ts)))
           ++ ocr_error msg).
Proof.
  cbv zeta.
  assert (Hc : exists p l, map OcrText ts ++ OcrRaises msg :: rest = p :: l)
    by (destruct ts as [|t ts]; eexists _, _; reflexivity).
  destruct Hc as [p [l Hc]]. unfold ocr_pdf_to_text. rewrite Hc. cbv beta iota.
  rewrite <- Hc, ocr_pages_raise, length_app, length_map. cbn [length].
  rewrite <- app_assoc. reflexivity.
Qed.

(** ** What [process] saves *)

Lemma app_extract_nonblank f t log : app_extract f = (Some t, log) -> is_blank t = false.
Proof.
  unfold app_extract. destruct f as [|pages]; [intros H; discriminate H|].
  destruct (app_pages 1 pages []) as [text|]; [|intros H; discriminate H].
  destruct (is_blank text) eqn:B; cbn [negb];
    intros H; [discriminate H|injection H as <- _; exact B].
Qed.

Lemma ocr_nonblank src t log : ocr_pdf_to_text src = (Some t, log) -> is_blank t = false.
Proof.
  unfold ocr_pdf_to_text. destruct src as [msg|[|p ps]]; [intros H; discriminate H..|].
  destruct (ocr_pages _ _ _ _ _) as [[full|msg] l]; [|intros H; discriminate H].
  destruct (is_blank full) eqn:B; intros H; [discriminate H|injection H as <- _; exact B].
Qed.

Lemma strip_banner_nonblank x (l : list (text * bool)) y :
  strip x ++ match l with [] => [] | _ => banner ++ y end <> [] ->
  is_blank (strip x ++ match l with [] => [] | _ => banner ++ y end) = false.
Proof.
  intros Hne. destruct (strip x) as [|c s] eqn:E.
  - destruct l as [|cb l]; [contradiction Hne; reflexivity|].
    cbn [app]. unfold is_blank. rewrite forallb_app.
    replace (forallb is_ws banner) with false by (vm_compute; reflexivity).
    reflexivity.
  - destruct (strip_is_stripped x) as [H _]. rewrite E in H.
    change (is_ws c = false) in H. cbn [app]. unfold is_blank. cbn [forallb].
    rewrite H. reflexivity.
Qed.

Lemma organize_nonblank t : organize t <> [] -> is_blank (organize t) = false.
Proof. rewrite organize_layout. apply strip_banner_nonblank. Qed.

Lemma bpp_extract_some f t log :
  bpp_extract f = (Some t, log) -> exists raw, t = organize raw.
Proof.
  unfold bpp_extract. destruct f as [|pages]; [intros H; discriminate H|].
  destruct (bpp_pages 1 pages [] _) as [raw l].
  destruct (is_blank raw); intros H; [discriminate H|].
  injection H as <- _. exists raw. reflexivity.
Qed.

(** [process] of src/app.py saves only text that is not blank, and only
    for a path [validate_pdf] accepted; it reports success exactly when it
    has a text to save and saving it succeeds. *)
Theorem app_run_result pdf_exists pdf_path f src save_ok :
  let '(log, success, saved) := app_run pdf_exists pdf_path f src save_ok in
  (forall t, saved = Some t ->
     is_blank t = false /\ fst (validate_pdf pdf_exists pdf_path) = true) /\
  success = save_ok && match saved with Some _ => true | None => false end.
Proof.
  unfold app_run. destruct (validate_pdf pdf_exists pdf_path) as [valid vlog] eqn:V.
  cbn [fst]. destruct valid; cbn [negb].
  2: { split; [intros t H; discriminate H|]. rewrite andb_false_r. reflexivity. }
  destruct (app_extract f) as [txt log1] eqn:A.
  destruct (falsy txt) eqn:Ft; cbn [fst snd]; rewrite ?Ft; cbn [fst snd].
  - destruct (ocr_pdf_to_text src) as [t' l] eqn:O; cbn [fst snd].
    destruct (falsy t') eqn:Ft2; cbn [fst snd]; rewrite ?Ft2; cbn [fst snd].
    + split; [intros t H; discriminate H|]. rewrite andb_false_r. reflexivity.
    + destruct t' as [x|]; [|discriminate Ft2].
      split; [|rewrite andb_true_r; reflexivity].
      intros t H. injection H as <-. split; [exact (ocr_nonblank _ _ _ O)|reflexivity].
  - destruct txt as [x|]; [|discriminate Ft].
    split; [|rewrite andb_true_r; reflexivity].
    intros t H. injection H as <-. split; [exact (app_extract_nonblank _ _ _ A)|reflexivity].
Qed.

Lemma app_run_result_witness :
  app_run true (chars "scan.pdf") (Readable [Text (chars "  ")])
    (Images [OcrText (chars "Hi")]) true =
    ([Processing; Core (Checking 1); Core NoText; Core FallingBack; Converting;
      OcrPages 1; OcrPage 1 1; OcrDone; SavedTo], true,
     Some (ocr_text_of 1 [chars "Hi"])) /\
  (forall t, Some (ocr_text_of 1 [chars "Hi"]) = Some t ->
     is_blank t = false /\ fst (validate_pdf true (chars "scan.pdf")) = true).
Proof.
  pose proof (app_run_result true (chars "scan.pdf") (Readable [Text (chars "  ")])
                (Images [OcrText (chars "Hi")]) true) as H.
  assert (E : app_run true (chars "scan.pdf") (Readable [Text (chars "  ")])
                (Images [OcrText (chars "Hi")]) true =
    ([Processing; Core (Checking 1); Core NoText; Core FallingBack; Converting;
      OcrPages 1; OcrPage 1 1; OcrDone; SavedTo], true,
     Some (ocr_text_of 1 [chars "Hi"]))) by (vm_compute; reflexivity).
  rewrite E in H. split; [exact E|exact (proj1 H)].
Defined.

(** [process] of src/bpp.py saves only text that is not blank, and only
    for a path [validate_pdf] accepted; it reports success exactly when it
    has a text to save and saving it succeeds. *)
Theorem bpp_run_result pdf_exists pdf_path f save_ok :
  let '(log, success, saved) := bpp_run pdf_exists pdf_path f save_ok in
  (forall t, saved = Some t ->
     is_blank t = false /\ fst (validate_pdf pdf_exists pdf_path) = true) /\
  success = save_ok && match saved with Some _ => true | None => false end.
Proof.
  unfold bpp_run. destruct (validate_pdf pdf_exists pdf_path) as [valid vlog] eqn:V.
  cbn [fst]. destruct valid; cbn [negb].
  2: { split; [intros t H; discriminate H|]. rewrite andb_false_r. reflexivity. }
  destruct (bpp_extract f) as [txt log1] eqn:A.
  destruct (falsy txt) eqn:Ft; cbn [fst snd].
  - split; [intros t H; discriminate H|]. rewrite andb_false_r. reflexivity.
  - destruct txt as [x|]; [|discriminate Ft].
    split; [|rewrite andb_true_r; reflexivity].
    intros t H. injection H as <-. split; [|reflexivity].
    destruct (bpp_extract_some _ _ _ A) as [raw ->]. apply organize_nonblank.
    intros E. rewrite E in Ft. discriminate Ft.
Qed.

Lemma bpp_run_result_witness :
  bpp_run true (chars "a.pdf") (Readable [Text (chars "Hello")]) false =
    ([Processing; Core (Checking 1); Core FoundText; Core Organized; SaveError], false,
     Some (organize (page_marker 1 ++ chars "Hello"))) /\
  (forall t, Some (organize (page_marker 1 ++ chars "Hello")) = Some t ->
     is_blank t = false /\ fst (validate_pdf true (chars "a.pdf")) = true).
Proof.
  pose proof (bpp_run_result true (chars "a.pdf") (Readable [Text (chars "Hello")]) false) as H.
  assert (E : bpp_run true (chars "a.pdf") (Readable [Text (chars "Hello")]) false =
    ([Processing; Core (Checking 1); Core FoundText; Core Organized; SaveError], false,
     Some (organize (page_marker 1 ++ chars "Hello")))) by (vm_compute; reflexivity).
  rewrite E in H. split; [exact E|exact (proj1 H)].
Defined.
